(** * 3D Dragon Adventure: the task progression of [src/game.js]

    A shallow embedding of the game's task state machine
    ([checkCurrentTaskCompletion], [spawnCrystal], [updateTaskUI], [init] and
    the per-frame [animate]) and the properties of its specification.

    Coordinates are JavaScript numbers, that is IEEE 754 binary64 values:
    they are Rocq's primitive floats, whose operations compute with the same
    rounding.  The module-level [let] handles of the script may be
    [undefined], so they are options, and a dereference of [undefined] is a
    [TypeError] completion that carries the state reached so far. *)

From Stdlib Require Import ZArith Floats String List Bool Lia.
Import ListNotations.

Set Warnings "-inexact-float".

(** ** The part of three.js the script relies on *)

Module THREE.

Record Vector3 := mkVector3 { x : float; y : float; z : float }.

(** Modelled from the spec: three.js is not part of [src/]; section 4.2
    fixes the metric as the plain Euclidean norm between the two
    positions.  [Vector3.distanceToSquared] and [Vector3.distanceTo] of
    three.js compute it as below, in binary64 arithmetic. *)
Definition distanceToSquared (a v : Vector3) : float :=
  let dx := (x a - x v)%float in
  let dy := (y a - y v)%float in
  let dz := (z a - z v)%float in
  (dx * dx + dy * dy + dz * dz)%float.

(** [a.distanceTo(v)] is [Math.sqrt(a.distanceToSquared(v))]. *)
Definition distanceTo (a v : Vector3) : float :=
  PrimFloat.sqrt (distanceToSquared a v).

(** [Object3D.rotation]: Euler angles. *)
Record Euler := mkEuler { ex : float; ey : float; ez : float }.

(** A material, as far as the script touches it: [color] holds the
    hexadecimal value given to [Color.set] or to the constructor. *)
Record Material := mkMaterial { color : Z; wireframe : bool }.

(** References to the container objects of the script: what a [parent]
    field can point to. *)
Inductive Ref := SceneRef | PlayerContainerRef.

Definition Ref_eqb (a b : Ref) : bool :=
  match a, b with
  | SceneRef, SceneRef | PlayerContainerRef, PlayerContainerRef => true
  | _, _ => false
  end.

(** An [Object3D] or [Mesh]; [parent = None] is JavaScript's [null], and a
    plain [Object3D] has no [material]. *)
Record Object3D := mkObject3D {
  position : Vector3;
  rotation : Euler;
  parent : option Ref;
  material : option Material
}.

Definition origin : Vector3 := mkVector3 0 0 0.
Definition noRotation : Euler := mkEuler 0 0 0.

(** [new THREE.Mesh(geometry, material)]: at the origin, with no parent. *)
Definition newMesh (m : Material) : Object3D :=
  mkObject3D origin noRotation None (Some m).

(** [new THREE.Object3D()]. *)
Definition newObject3D : Object3D :=
  mkObject3D origin noRotation None None.

Definition setPosition (p : Vector3) (o : Object3D) : Object3D :=
  mkObject3D p (rotation o) (parent o) (material o).

Definition setRotation (r : Euler) (o : Object3D) : Object3D :=
  mkObject3D (position o) r (parent o) (material o).

Definition setParent (r : option Ref) (o : Object3D) : Object3D :=
  mkObject3D (position o) (rotation o) r (material o).

Definition setMaterial (m : option Material) (o : Object3D) : Object3D :=
  mkObject3D (position o) (rotation o) (parent o) m.

End THREE.

Import THREE.

(** ** The state of the script *)

(** The module-level variables of [game.js] that the task logic reads or
    writes, the text of the [#game-info p] element ([None] when the document
    has no such element) and the lines written to the console.  Every handle
    owns its object: no two handles of the script ever name the same
    object, so objects are stored by value. *)
Record Game := mkGame {
  scene : option Ref;
  playerObjectContainer : option Object3D;
  shrineTarget : option Object3D;
  crystalObject : option Object3D;
  villageMarker : option Object3D;
  elderPlaceholder : option Object3D;
  currentTask : Z;
  hasCrystal : bool;
  taskInfoElement : option string;
  console : list string
}.

Definition completionRadius : float := 3.0%float.

Definition set_scene (v : option Ref) (g : Game) : Game :=
  mkGame v (playerObjectContainer g) (shrineTarget g) (crystalObject g)
    (villageMarker g) (elderPlaceholder g) (currentTask g) (hasCrystal g)
    (taskInfoElement g) (console g).

Definition set_playerObjectContainer (v : option Object3D) (g : Game) : Game :=
  mkGame (scene g) v (shrineTarget g) (crystalObject g)
    (villageMarker g) (elderPlaceholder g) (currentTask g) (hasCrystal g)
    (taskInfoElement g) (console g).

Definition set_shrineTarget (v : option Object3D) (g : Game) : Game :=
  mkGame (scene g) (playerObjectContainer g) v (crystalObject g)
    (villageMarker g) (elderPlaceholder g) (currentTask g) (hasCrystal g)
    (taskInfoElement g) (console g).

Definition set_crystalObject (v : option Object3D) (g : Game) : Game :=
  mkGame (scene g) (playerObjectContainer g) (shrineTarget g) v
    (villageMarker g) (elderPlaceholder g) (currentTask g) (hasCrystal g)
    (taskInfoElement g) (console g).

Definition set_villageMarker (v : option Object3D) (g : Game) : Game :=
  mkGame (scene g) (playerObjectContainer g) (shrineTarget g) (crystalObject g)
    v (elderPlaceholder g) (currentTask g) (hasCrystal g)
    (taskInfoElement g) (console g).

Definition set_elderPlaceholder (v : option Object3D) (g : Game) : Game :=
  mkGame (scene g) (playerObjectContainer g) (shrineTarget g) (crystalObject g)
    (villageMarker g) v (currentTask g) (hasCrystal g)
    (taskInfoElement g) (console g).

Definition set_currentTask (v : Z) (g : Game) : Game :=
  mkGame (scene g) (playerObjectContainer g) (shrineTarget g) (crystalObject g)
    (villageMarker g) (elderPlaceholder g) v (hasCrystal g)
    (taskInfoElement g) (console g).

Definition set_hasCrystal (v : bool) (g : Game) : Game :=
  mkGame (scene g) (playerObjectContainer g) (shrineTarget g) (crystalObject g)
    (villageMarker g) (elderPlaceholder g) (currentTask g) v
    (taskInfoElement g) (console g).

Definition set_taskInfoElement (v : option string) (g : Game) : Game :=
  mkGame (scene g) (playerObjectContainer g) (shrineTarget g) (crystalObject g)
    (villageMarker g) (elderPlaceholder g) (currentTask g) (hasCrystal g)
    v (console g).

Definition set_console (v : list string) (g : Game) : Game :=
  mkGame (scene g) (playerObjectContainer g) (shrineTarget g) (crystalObject g)
    (villageMarker g) (elderPlaceholder g) (currentTask g) (hasCrystal g)
    (taskInfoElement g) v.

(** ** Statements: state passing with [TypeError] *)

(** How a statement completes: normally, or by throwing a [TypeError]
    (a property read on [undefined] or [null]).  Both carry the state, since
    the assignments made before a throw stay made. *)
Inductive Completion :=
| Normal (g : Game)
| TypeError (g : Game).

Definition Js := Game -> Completion.

Definition state_of (c : Completion) : Game :=
  match c with Normal g | TypeError g => g end.

Definition threw (c : Completion) : bool :=
  match c with Normal _ => false | TypeError _ => true end.

Definition andThen (a b : Js) : Js := fun g =>
  match a g with
  | Normal g' => b g'
  | TypeError g' => TypeError g'
  end.

Notation "a ;; b" := (andThen a b) (at level 61, right associativity).

Definition skip : Js := Normal.

Definition assign (f : Game -> Game) : Js := fun g => Normal (f g).

(** [if (c) { body }] *)
Definition when (c : Game -> bool) (body : Js) : Js := fun g =>
  if c g then body g else Normal g.

Definition console_log (msg : string) : Js :=
  assign (fun g => set_console (console g ++ [msg]) g).

(** ** The scene graph, as far as the script observes it *)

(** [o.parent === scene]: strict equality of a reference or [null] with a
    reference or [undefined]. *)
Definition parentIsScene (g : Game) (o : Object3D) : bool :=
  match parent o, scene g with
  | Some r, Some s => Ref_eqb r s
  | _, _ => false
  end.

(** Modelled from the spec: the scene graph of three.js is not part of
    [src/]; by section 9 an object is visible when it is present in the
    scene's collection, that is added and not removed since.  [scene.add(o)]
    makes the scene the parent of [o]. *)
Definition scene_add (s : Ref) (o : Object3D) : Object3D :=
  setParent (Some s) o.

(** Modelled from the spec: [scene.remove(o)] takes [o] out of the scene's
    collection when it is a child of the scene, and leaves it with no
    parent. *)
Definition scene_remove (s : Ref) (o : Object3D) : Object3D :=
  match parent o with
  | Some r => if Ref_eqb r s then setParent None o else o
  | None => o
  end.

(** ** The functions of [game.js] *)

(** The initial values of the module-level variables, before [init] runs:
    every handle is [undefined]; [dom] is the text of the [#game-info p]
    element of the page, if the page has one. *)
Definition moduleState (dom : option string) : Game :=
  mkGame None None None None None None 1 false dom [].

Definition shrinePosition : Vector3 := mkVector3 15 5 20.
Definition villagePosition : Vector3 := mkVector3 (-15) 0.5 (-10).
Definition elderPosition : Vector3 := mkVector3 (-15) 1.75 (-12).
Definition playerStart : Vector3 := mkVector3 0 1 0.

Definition shrineMaterial : Material := mkMaterial 0xFFFF00 true.
Definition crystalMaterial : Material := mkMaterial 0x0088FF false.
Definition villageMaterial : Material := mkMaterial 0x00AA00 false.
Definition elderMaterial : Material := mkMaterial 0x808080 false.

(** [document.getElementById('game-info').querySelector('p').textContent = s] *)
Definition setTaskInfoText (s : string) : Js := fun g =>
  match taskInfoElement g with
  | None => TypeError g
  | Some _ => Normal (set_taskInfoElement (Some s) g)
  end.

(** [init], up to its last statement: the scene and the task objects are
    created, the crystal is the one mesh that is not added to the scene, and
    the loading message is shown.  Camera, renderer, lights, ground plane and
    listeners hold no task state and are left out.  The last statement of
    [init] is [animate()], which starts the frame loop ([reachable] below). *)
Definition init : Js :=
  assign (set_scene (Some SceneRef)) ;;
  assign (set_playerObjectContainer
            (Some (scene_add SceneRef (setPosition playerStart newObject3D)))) ;;
  assign (set_shrineTarget
            (Some (scene_add SceneRef
                     (setPosition shrinePosition (newMesh shrineMaterial))))) ;;
  assign (set_crystalObject (Some (newMesh crystalMaterial))) ;;
  assign (set_villageMarker
            (Some (scene_add SceneRef
                     (setPosition villagePosition (newMesh villageMaterial))))) ;;
  assign (set_elderPlaceholder
            (Some (scene_add SceneRef
                     (setPosition elderPosition (newMesh elderMaterial))))) ;;
  setTaskInfoText "Loading assets...".

(** [spawnCrystal]: nothing when the crystal is missing or already in the
    scene; otherwise it is placed at the shrine, lowered by 1.0, shifted by
    1.5 along x, and added to the scene. *)
Definition spawnCrystal : Js := fun g =>
  match crystalObject g with
  | None => Normal g
  | Some c =>
      if parentIsScene g c then Normal g
      else
        match shrineTarget g with
        | None => TypeError g
        | Some s =>
            let p0 := position s in
            let p1 := mkVector3 (x p0) (y p0 - 1.0)%float (z p0) in
            let p2 := mkVector3 (x p1 + 1.5)%float (y p1) (z p1) in
            let c' := setPosition p2 c in
            match scene g with
            | None => TypeError (set_crystalObject (Some c') g)
            | Some sc =>
                console_log "Crystal spawned near shrine."
                  (set_crystalObject (Some (scene_add sc c')) g)
            end
        end
  end.

(** The [switch] of [updateTaskUI]: the text for a task number; task 3 has
    two texts, chosen by [hasCrystal]. *)
Definition taskText (task : Z) (crystal : bool) : string :=
  match task with
  | 1%Z => "Task 1: Fly to the Ancient Shrine (Yellow Orb)"
  | 2%Z => "Task 2: Collect the Sacred Crystal (Blue Crystal)"
  | 3%Z =>
      if crystal
      then "Task 3: Deliver the Crystal to the Elder (Grey Capsule) at the Village (Green Platform)"
      else "Task 3: Find the Elder... (Missing Crystal)"
  | 4%Z => "All Tasks Complete! The tribe is safe for now."
  | _ => "No current task."
  end.

Definition updateTaskUI : Js := fun g =>
  setTaskInfoText (taskText (currentTask g) (hasCrystal g)) g.

(** [loadingManager.onLoad] *)
Definition onLoad : Js :=
  console_log "All assets loaded!" ;; updateTaskUI.

(** The three guards of [checkCurrentTaskCompletion], with JavaScript's
    short-circuit [&&]. *)
Definition shrineReached (playerPos : Vector3) (g : Game) : bool :=
  match shrineTarget g with
  | None => false
  | Some s => (distanceTo playerPos (position s) <? completionRadius)%float
  end.

Definition crystalReached (playerPos : Vector3) (g : Game) : bool :=
  match crystalObject g with
  | None => false
  | Some c =>
      parentIsScene g c
      && (distanceTo playerPos (position c) <? completionRadius)%float
  end.

Definition elderReached (playerPos : Vector3) (g : Game) : bool :=
  hasCrystal g &&
  match elderPlaceholder g with
  | None => false
  | Some e => (distanceTo playerPos (position e) <? completionRadius)%float
  end.

(** [if (shrineTarget.material) { color.set(0x00FF00); wireframe = false }] *)
Definition greenShrine : Js := fun g =>
  match shrineTarget g with
  | None => TypeError g
  | Some s =>
      match material s with
      | None => Normal g
      | Some _ =>
          Normal (set_shrineTarget
                    (Some (setMaterial (Some (mkMaterial 0x00FF00 false)) s)) g)
      end
  end.

(** [scene.remove(crystalObject)] *)
Definition removeCrystal : Js := fun g =>
  match scene g with
  | None => TypeError g
  | Some sc =>
      match crystalObject g with
      | None => Normal g
      | Some c => Normal (set_crystalObject (Some (scene_remove sc c)) g)
      end
  end.

(** [if (elderPlaceholder.material) { color.set(0xA0A0A0) }] *)
Definition lightenElder : Js := fun g =>
  match elderPlaceholder g with
  | None => TypeError g
  | Some e =>
      match material e with
      | None => Normal g
      | Some m =>
          Normal (set_elderPlaceholder
                    (Some (setMaterial (Some (mkMaterial 0xA0A0A0 (wireframe m))) e)) g)
      end
  end.

(** The bodies of the three [if]s: what a transition does. *)
Definition completeTask1 : Js :=
  console_log "Task 1 Complete! Shrine Reached." ;;
  assign (set_currentTask 2) ;;
  greenShrine ;;
  spawnCrystal ;;
  updateTaskUI.

Definition completeTask2 : Js :=
  console_log "Task 2 Complete! Crystal Collected." ;;
  assign (set_currentTask 3) ;;
  assign (set_hasCrystal true) ;;
  removeCrystal ;;
  updateTaskUI.

Definition completeTask3 : Js :=
  console_log "Task 3 Complete! Crystal Delivered." ;;
  assign (set_currentTask 4) ;;
  assign (set_hasCrystal false) ;;
  lightenElder ;;
  updateTaskUI.

(** The trailing [if] of [checkCurrentTaskCompletion]: a crystal that is in
    the scene turns by 0.02 about y on every call. *)
Definition spinCrystal : Js := fun g =>
  match crystalObject g with
  | None => Normal g
  | Some c =>
      if parentIsScene g c
      then
        let r := rotation c in
        Normal (set_crystalObject
                  (Some (setRotation (mkEuler (ex r) (ey r + 0.02)%float (ez r)) c)) g)
      else Normal g
  end.

Definition checkCurrentTaskCompletion : Js := fun g =>
  match playerObjectContainer g with
  | None => Normal g
  | Some player =>
      let playerPos := position player in
      ((match currentTask g with
        | 1%Z => when (shrineReached playerPos) completeTask1
        | 2%Z => when (crystalReached playerPos) completeTask2
        | 3%Z => when (elderReached playerPos) completeTask3
        | _ => skip
        end) ;; spinCrystal) g
  end.

(** The player is moved by [updatePlayer] from the keyboard state and the
    frame time; the model takes the position it leaves the player at as the
    input of the frame, so every position is possible in every frame. *)
Definition movePlayerTo (p : Vector3) (g : Game) : Game :=
  match playerObjectContainer g with
  | None => g
  | Some player => set_playerObjectContainer (Some (setPosition p player)) g
  end.

(** One frame of [animate]: when the player exists it is moved and the
    current task is checked.  The camera and the renderer hold no task
    state. *)
Definition animate (p : Vector3) : Js := fun g =>
  match playerObjectContainer g with
  | None => Normal g
  | Some _ => (assign (movePlayerTo p) ;; checkCurrentTaskCompletion) g
  end.

(** ** Runs *)

(** What happens after [init]: frames, and the loading manager reporting
    that the assets are loaded. *)
Inductive Event :=
| Frame (p : Vector3)
| AssetsLoaded.

Definition handle (e : Event) : Js :=
  match e with
  | Frame p => animate p
  | AssetsLoaded => onLoad
  end.

(** An exception thrown inside a frame ends that frame only: the next frame
    was requested before, and runs on the state the throw left. *)
Definition step (e : Event) (g : Game) : Game := state_of (handle e g).

(** The state after a sequence of events. *)
Definition run (es : list Event) (g : Game) : Game :=
  fold_left (fun g e => step e g) es g.

(** The states of a run: [init] completed on a freshly loaded module, then
    any number of events. *)
Inductive reachable : Game -> Prop :=
| reach_init dom g : init (moduleState dom) = Normal g -> reachable g
| reach_step e g : reachable g -> reachable (step e g).

(** The state in which the frame loop starts. *)
Definition startState : Game :=
  state_of (init (moduleState (Some EmptyString))).

(** ** Vocabulary of the specification *)

(** Where [spawnCrystal] puts the crystal: the shrine's position moved by
    (1.5, -1.0, 0). *)
Definition crystalSpawnPosition : Vector3 := mkVector3 16.5 4 20.

(** The crystal is visible: it exists and is a child of the scene. *)
Definition crystalVisible (g : Game) : bool :=
  match crystalObject g with
  | None => false
  | Some c => parentIsScene g c
  end.

(** The position the player is at, when there is a player. *)
Definition playerPosition (g : Game) : option Vector3 :=
  option_map position (playerObjectContainer g).

(** The object whose distance the guard of the current task measures. *)
Definition guardTarget (g : Game) : option Object3D :=
  match currentTask g with
  | 1%Z => shrineTarget g
  | 2%Z => crystalObject g
  | 3%Z => elderPlaceholder g
  | _ => None
  end.

(** The guard that [checkCurrentTaskCompletion] evaluates in state [g]:
    the condition of the [if] in the [case] of the current task. *)
Definition guardPasses (g : Game) : bool :=
  match playerObjectContainer g with
  | None => false
  | Some player =>
      match currentTask g with
      | 1%Z => shrineReached (position player) g
      | 2%Z => crystalReached (position player) g
      | 3%Z => elderReached (position player) g
      | _ => false
      end
  end.

(** [p] is strictly within the completion radius of [q]. *)
Definition within (p q : Vector3) : bool :=
  (distanceTo p q <? completionRadius)%float.

(** The state without the console lines: task, inventory, objects, text. *)
Definition world (g : Game) : Game := set_console [] g.

(** The four phases of a run, in terms of the task number, the inventory
    flag and the crystal. *)
Inductive Phase : Z -> bool -> Object3D -> Prop :=
| AwaitingShrine c : parent c = None -> Phase 1 false c
| AwaitingCrystal c :
    parent c = Some SceneRef -> position c = crystalSpawnPosition ->
    Phase 2 false c
| AwaitingDelivery c : parent c = None -> Phase 3 true c
| Complete c : parent c = None -> Phase 4 false c.

(** What [init] establishes and every event keeps. *)
Inductive Inv : Game -> Prop :=
| Inv_intro pl sh cr vi el t h txt log :
    position sh = shrinePosition -> material sh <> None ->
    position el = elderPosition -> material el <> None ->
    Phase t h cr ->
    Inv (mkGame (Some SceneRef) (Some pl) (Some sh) (Some cr) (Some vi)
           (Some el) t h (Some txt) log).

(** A frame with the player at [p] changes the task number. *)
Definition advances (p : Vector3) (g : Game) : bool :=
  negb (currentTask (step (Frame p) g) =? currentTask g)%Z.

(** The state with the crystal's rotation reset: what is left of a state
    when the spin of the crystal is not looked at. *)
Definition withoutCrystalRotation (g : Game) : Game :=
  set_crystalObject (option_map (setRotation noRotation) (crystalObject g)) g.

(** The crystal turned by 0.02 about y. *)
Definition turned (c : Object3D) : Object3D :=
  setRotation (mkEuler (ex (rotation c)) (ey (rotation c) + 0.02)%float
                 (ez (rotation c))) c.

(** The six texts [updateTaskUI] can show. *)
Definition taskTexts : list string :=
  [ "Task 1: Fly to the Ancient Shrine (Yellow Orb)";
    "Task 2: Collect the Sacred Crystal (Blue Crystal)";
    "Task 3: Deliver the Crystal to the Elder (Grey Capsule) at the Village (Green Platform)";
    "Task 3: Find the Elder... (Missing Crystal)";
    "All Tasks Complete! The tribe is safe for now.";
    "No current task." ]%string.

(** The text shown after [updateTaskUI] ran in state [g]. *)
Definition shownAfterUpdate (g : Game) : option string :=
  taskInfoElement (state_of (updateTaskUI g)).

(** Running a statement again on the state it left. *)
Definition twice (f : Js) : Js := fun g => f (state_of (f g)).

(** States of a sample run: the player flies to the shrine, to the crystal,
    and to the elder. *)
Definition afterShrine : Game := step (Frame shrinePosition) startState.
Definition afterCrystal : Game := step (Frame crystalSpawnPosition) afterShrine.
Definition afterDelivery : Game := step (Frame elderPosition) afterCrystal.

(** Task 2 with a crystal that was never spawned. *)
Definition neverSpawned : Game := set_currentTask 2 startState.

(** Task 3 without the crystal, the player standing at the elder. *)
Definition emptyHanded : Game :=
  set_currentTask 3 (movePlayerTo elderPosition startState).

(** Task 3 holding the crystal, the player standing at the elder. *)
Definition carrying : Game := set_hasCrystal true emptyHanded.

(** The point at distance [d] straight below the shrine. *)
Definition belowShrine (d : float) : Vector3 :=
  mkVector3 15 (5 - d)%float 20.

(** ** The player's movement: [updatePlayer] and the key listeners *)

(** [Math.max(a, b)] as ECMAScript defines it: [NaN] when an argument is
    [NaN]; otherwise the larger argument, starting from -infinity, with +0
    counted as larger than -0. *)
Definition Math_max (a b : float) : float :=
  if PrimFloat.is_nan a then nan
  else
    let highest := if (neg_infinity <? a)%float then a else neg_infinity in
    if PrimFloat.is_nan b then nan
    else
      let highest :=
        match PrimFloat.classify b, PrimFloat.classify highest with
        | PZero, NZero => b
        | _, _ => highest
        end in
      if (highest <? b)%float then b else highest.

(** [keyboardState]: an object used as a map from key codes to booleans;
    [None] is a property that was never set. *)
Definition KeyboardState := string -> option bool.

(** [const keyboardState = {}] *)
Definition noKeys : KeyboardState := fun _ => None.

(** The [keydown] and [keyup] listeners:
    [keyboardState[event.code] = true] and [... = false]. *)
Definition keydown (code : string) (ks : KeyboardState) : KeyboardState :=
  fun c => if String.eqb c code then Some true else ks c.

Definition keyup (code : string) (ks : KeyboardState) : KeyboardState :=
  fun c => if String.eqb c code then Some false else ks c.

(** [if (keyboardState[code])]: an unset property is [undefined], which is
    falsy. *)
Definition isDown (ks : KeyboardState) (code : string) : bool :=
  match ks code with
  | Some b => b
  | None => false
  end.

Inductive KeyEvent :=
| KeyDown (code : string)
| KeyUp (code : string).

Definition onKey (e : KeyEvent) (ks : KeyboardState) : KeyboardState :=
  match e with
  | KeyDown code => keydown code ks
  | KeyUp code => keyup code ks
  end.

(** The keyboard state after a sequence of key events on a fresh page. *)
Definition keysAfter (es : list KeyEvent) : KeyboardState :=
  fold_left (fun ks e => onKey e ks) es noKeys.


Definition movementSpeed : float := 5.0%float.
Definition Math_PI : float := 3.141592653589793%float.
Definition rotationSpeed : float := (Math_PI / 2)%float.
Definition flySpeed : float := 3.0%float.
Definition groundLevel : float := 0.1%float.

(** [playerObjectContainer.position.y += d] *)
Definition raise (d : float) (o : Object3D) : Object3D :=
  setPosition (mkVector3 (x (position o)) (y (position o) + d)%float
                 (z (position o))) o.

(** [position.y = Math.max(groundLevel, position.y - d)] *)
Definition lower (d : float) (o : Object3D) : Object3D :=
  setPosition (mkVector3 (x (position o))
                 (Math_max groundLevel (y (position o) - d)%float)
                 (z (position o))) o.

Section PlayerMovement.

(** [Object3D.translateZ(distance)] and [Object3D.rotateY(angle)] of
    three.js, which is not part of [src/]: they are parameters here. *)
Variables translateZ rotateY : float -> Object3D -> Object3D.

(** [if (keyboardState[code]) f(player)] *)
Definition whenKey (ks : KeyboardState) (code : string)
    (f : Object3D -> Object3D) (o : Object3D) : Object3D :=
  if isDown ks code then f o else o.

(** [updatePlayer(deltaTime)], reading the keyboard state [ks]. *)
Definition updatePlayer (ks : KeyboardState) (deltaTime : float) : Js := fun g =>
  match playerObjectContainer g with
  | None => Normal g
  | Some player =>
      let moveDistance := (movementSpeed * deltaTime)%float in
      let rotateAngle := (rotationSpeed * deltaTime)%float in
      let flyDistance := (flySpeed * deltaTime)%float in
      let player := whenKey ks "KeyW" (translateZ moveDistance) player in
      let player := whenKey ks "KeyS" (translateZ (- moveDistance)%float) player in
      let player := whenKey ks "KeyA" (rotateY rotateAngle) player in
      let player := whenKey ks "KeyD" (rotateY (- rotateAngle)%float) player in
      let player := whenKey ks "KeyE" (raise flyDistance) player in
      let player := whenKey ks "KeyQ" (lower flyDistance) player in
      Normal (set_playerObjectContainer (Some player) g)
  end.

(** One frame of [animate] with the player moved by [updatePlayer]:
    [deltaTime] is what [clock.getDelta()] returned.  [updateCamera] and the
    renderer hold no task state and are left out. *)
Definition animateFrame (ks : KeyboardState) (deltaTime : float) : Js := fun g =>
  match playerObjectContainer g with
  | None => Normal g
  | Some _ => (updatePlayer ks deltaTime ;; checkCurrentTaskCompletion) g
  end.

End PlayerMovement.

(** A sample [translateZ]: the move of an object that was never turned. *)
Definition translateZ_unturned (d : float) (o : Object3D) : Object3D :=
  setPosition (mkVector3 (x (position o)) (y (position o))
                 (z (position o) + d)%float) o.

(** A sample [rotateY] for an object whose turn is not looked at. *)
Definition rotateY_unseen (a : float) (o : Object3D) : Object3D := o.

(** ** More vocabulary *)

(** The state with the player taken out: what a state says apart from the
    player object. *)
Definition forgetPlayer (g : Game) : Game := set_playerObjectContainer None g.

(** A completion with its state changed by [f]. *)
Definition mapCompletion (f : Game -> Game) (c : Completion) : Completion :=
  match c with
  | Normal g => Normal (f g)
  | TypeError g => TypeError (f g)
  end.

(** What stays of an object when its material is not looked at. *)
Definition placement (o : option Object3D)
  : option (Vector3 * Euler * option Ref) :=
  option_map (fun m => (position m, rotation m, parent m)) o.

(** What no statement of the task logic changes: the scene handle, the
    player, the village marker, and where shrine and elder are. *)
Definition untouched (g g' : Game) : Prop :=
  scene g' = scene g /\
  playerObjectContainer g' = playerObjectContainer g /\
  villageMarker g' = villageMarker g /\
  placement (shrineTarget g') = placement (shrineTarget g) /\
  placement (elderPlaceholder g') = placement (elderPlaceholder g).

(** The text [init] shows. *)
Definition loadingText : string := "Loading assets...".

(** The text element shows the loading message, which happens in task 1
    only, or the text of the current task. *)
Definition textTracksTask (g : Game) : Prop :=
  (taskInfoElement g = Some loadingText /\ currentTask g = 1%Z) \/
  taskInfoElement g = Some (taskText (currentTask g) (hasCrystal g)).

(** The shrine, elder and crystal of a run in task [t]. *)
Definition shrineAt (t : Z) : Object3D :=
  mkObject3D shrinePosition noRotation (Some SceneRef)
    (Some (if (t =? 1)%Z then shrineMaterial else mkMaterial 0x00FF00 false)).

Definition elderAt (t : Z) : Object3D :=
  mkObject3D elderPosition noRotation (Some SceneRef)
    (Some (if (t =? 4)%Z then mkMaterial 0xA0A0A0 false else elderMaterial)).

Definition crystalAt (t : Z) (r : Euler) : Object3D :=
  mkObject3D (if (t =? 1)%Z then origin else crystalSpawnPosition) r
    (if (t =? 2)%Z then Some SceneRef else None) (Some crystalMaterial).

(** The lines the transitions write to the console, in order. *)
Definition transitionLines : list string :=
  [ "Task 1 Complete! Shrine Reached.";
    "Crystal spawned near shrine.";
    "Task 2 Complete! Crystal Collected.";
    "Task 3 Complete! Crystal Delivered." ]%string.

(** The console without the asset notifications. *)
Definition transitionLog (g : Game) : list string :=
  filter (fun s => negb (String.eqb s "All assets loaded!")) (console g).

(** How many of [transitionLines] a run in task [t] has written. *)
Definition linesWritten (t : Z) : nat :=
  match t with
  | 1%Z => 0
  | 2%Z => 2
  | 3%Z => 3
  | _ => 4
  end.

(** [checkCurrentTaskCompletion] throws in state [g]: the guard passes and
    either the text element is missing or, in task 1, the crystal is to be
    added to a scene that does not exist. *)
Definition checkThrows (g : Game) : bool :=
  guardPasses g &&
  (match taskInfoElement g with None => true | Some _ => false end
   || ((currentTask g =? 1)%Z
       && match crystalObject g, scene g with
          | Some c, None => negb (parentIsScene g c)
          | _, _ => false
          end)).

(** The task check once the player is known to exist, at the player's
    position: the [switch] of [checkCurrentTaskCompletion] and the trailing
    spin. *)
Definition checkAt (playerPos : Vector3) : Js := fun g =>
  ((match currentTask g with
    | 1%Z => when (shrineReached playerPos) completeTask1
    | 2%Z => when (crystalReached playerPos) completeTask2
    | 3%Z => when (elderReached playerPos) completeTask3
    | _ => skip
    end) ;; spinCrystal) g.

(** A statement neither reads nor writes the player: it does the same
    whatever the player object is, and leaves that object in place. *)
Definition ignoresPlayer (f : Js) : Prop :=
  forall v g,
    f (set_playerObjectContainer v g)
    = mapCompletion (set_playerObjectContainer v) (f g).

(** A statement leaves [untouched] what the task logic never changes. *)
Definition keeps (f : Js) : Prop := forall g, untouched g (state_of (f g)).

(** The six keys [updatePlayer] reads. *)
Definition movementKeys : list string :=
  [ "KeyW"; "KeyS"; "KeyA"; "KeyD"; "KeyE"; "KeyQ" ]%string.

(** ** The invariant of a run *)

Lemma init_result dom g :
  init (moduleState dom) = Normal g -> g = startState.
Proof.
  destruct dom as [txt|]; cbv [init andThen assign moduleState setTaskInfoText];
    cbn; intros H; inversion H; reflexivity.
Qed.

Lemma Inv_startState : Inv startState.
Proof.
  cbv [startState]. cbn.
  constructor; cbn; try reflexivity; try discriminate.
  constructor. reflexivity.
Qed.

(** Proof steps shared by the lemmas below: name the fields of an object,
    unfold the statements of the script, and split on a distance test. *)
Ltac crush_object o :=
  let pos := fresh "pos" in let rot := fresh "rot" in
  let par := fresh "par" in let mat := fresh "mat" in
  destruct o as [pos rot par mat]; cbn in *; subst.

Ltac unfold_js :=
  cbv [step handle animate onLoad andThen assign movePlayerTo
       checkCurrentTaskCompletion when skip console_log updateTaskUI
       setTaskInfoText completeTask1 completeTask2 completeTask3 greenShrine
       removeCrystal lightenElder spawnCrystal spinCrystal shrineReached
       crystalReached elderReached parentIsScene guardPasses crystalVisible
       guardTarget playerPosition within world completionRadius] in *.

Ltac split_tests :=
  repeat match goal with
    | |- context [PrimFloat.ltb ?a ?b] =>
        let E := fresh "Hlt" in destruct (PrimFloat.ltb a b) eqn:E; cbn in *
    end.

Lemma Inv_step e g :
  Inv g -> Inv (step e g) /\ threw (handle e g) = false.
Proof.
  intros [pl sh cr vi el t h txt log Hsp Hsm Hep Hem Hph].
  crush_object sh. crush_object el.
  destruct mat as [ms|]; [|congruence].
  destruct mat0 as [me|]; [|congruence].
  destruct Hph as [c Hc|c Hc Hp|c Hc|c Hc]; crush_object c;
    destruct e as [p|]; unfold_js; cbn; split_tests;
    (split; [|reflexivity]);
    constructor; cbn; try reflexivity; try discriminate;
    constructor; reflexivity.
Qed.

Lemma reachable_Inv g : reachable g -> Inv g.
Proof.
  induction 1 as [dom g Hinit|e g _ IH].
  - rewrite (init_result _ _ Hinit). exact Inv_startState.
  - exact (proj1 (Inv_step e g IH)).
Qed.

Lemma reachable_run es g : reachable g -> reachable (run es g).
Proof.
  revert g. induction es as [|e es IH]; intros g Hg; cbn.
  - exact Hg.
  - apply IH. constructor. exact Hg.
Qed.

Lemma reachable_startState : reachable startState.
Proof. apply (reach_init (Some EmptyString)). reflexivity. Qed.

Lemma Inv_task_step e g :
  Inv g ->
  currentTask (step e g) = currentTask g \/
  currentTask (step e g) = (currentTask g + 1)%Z.
Proof.
  intros [pl sh cr vi el t h txt log Hsp Hsm Hep Hem Hph].
  crush_object sh. crush_object el.
  destruct mat as [ms|]; [|congruence].
  destruct mat0 as [me|]; [|congruence].
  destruct Hph as [c Hc|c Hc Hp|c Hc|c Hc]; crush_object c;
    destruct e as [p|]; unfold_js; cbn; split_tests; auto.
Qed.

Lemma Inv_phase g :
  Inv g ->
  exists c, crystalObject g = Some c /\
            Phase (currentTask g) (hasCrystal g) c /\
            scene g = Some SceneRef.
Proof.
  intros [pl sh cr vi el t h txt log Hsp Hsm Hep Hem Hph].
  exists cr. cbn. auto.
Qed.

Lemma Inv_crystalVisible g :
  Inv g -> (crystalVisible g = true <-> currentTask g = 2%Z).
Proof.
  intros Hinv. destruct (Inv_phase g Hinv) as (c & Hc & Hph & Hsc).
  unfold crystalVisible, parentIsScene. rewrite Hc, Hsc.
  destruct Hph as [c Hp|c Hp _|c Hp|c Hp]; rewrite Hp; cbn;
    split; intros H; (reflexivity || discriminate H).
Qed.

Lemma currentTask_spinCrystal g :
  currentTask (state_of (spinCrystal g)) = currentTask g.
Proof.
  unfold spinCrystal. destruct (crystalObject g) as [c|]; [|reflexivity].
  destruct (parentIsScene g c); reflexivity.
Qed.

(** With a false guard the [switch] does nothing: what is left of the check
    is its trailing statement. *)
Lemma guard_fails_check g :
  guardPasses g = false ->
  checkCurrentTaskCompletion g =
    match playerObjectContainer g with
    | None => Normal g
    | Some _ => spinCrystal g
    end.
Proof.
  unfold guardPasses, checkCurrentTaskCompletion, andThen, when, skip.
  destruct (playerObjectContainer g) as [pl|]; [|reflexivity].
  cbn. destruct (currentTask g) as [|[[|[]|]|[|[]|]|]|]; try reflexivity;
    intros Hg; rewrite Hg; reflexivity.
Qed.

Lemma guardPasses_target g pl :
  playerObjectContainer g = Some pl -> guardPasses g = true ->
  exists t, guardTarget g = Some t /\
            within (position pl) (position t) = true.
Proof.
  unfold guardPasses, guardTarget, within. intros Hpl. rewrite Hpl.
  destruct (currentTask g) as [|[[|[]|]|[|[]|]|]|]; try discriminate.
  - unfold elderReached. intros H. apply andb_true_iff in H as [_ H].
    destruct (elderPlaceholder g) as [e|]; [|discriminate H].
    exists e. auto.
  - unfold crystalReached.
    destruct (crystalObject g) as [c|]; [|intros H; discriminate H].
    intros H. apply andb_true_iff in H as [_ H]. exists c. auto.
  - unfold shrineReached.
    destruct (shrineTarget g) as [s|]; [|intros H; discriminate H].
    intros H. exists s. auto.
Qed.

(** ** The properties of the specification *)

(** C1: in state 1, a frame with the player strictly within 3.0 of the
    shrine at (15,5,20) completes normally in state 2, with the shrine solid
    green, the crystal in the scene at the shrine's position moved by
    (1.5,-1.0,0), that is (16.5,4,20), and the task-2 text shown. *)
Theorem shrine_reached_spawns_crystal g p :
  reachable g -> currentTask g = 1%Z -> within p shrinePosition = true ->
  exists g' s c,
    animate p g = Normal g' /\
    currentTask g' = 2%Z /\
    shrineTarget g' = Some s /\
    position s = shrinePosition /\
    material s = Some (mkMaterial 0x00FF00 false) /\
    crystalObject g' = Some c /\
    crystalVisible g' = true /\
    position c =
      mkVector3 (x (position s) + 1.5)%float (y (position s) - 1.0)%float
        (z (position s)) /\
    position c = mkVector3 16.5 4 20 /\
    taskInfoElement g' =
      Some "Task 2: Collect the Sacred Crystal (Blue Crystal)"%string.
Proof.
  intros Hr Ht Hp. apply reachable_Inv in Hr.
  destruct Hr as [pl sh cr vi el t h txt log Hsp Hsm Hep Hem Hph].
  cbn in Ht. subst t. inversion Hph as [c Hc| | |]; subst c.
  crush_object sh. crush_object cr.
  destruct mat as [ms|]; [|congruence].
  unfold within, distanceTo, distanceToSquared in Hp. cbn in Hp.
  unfold_js. cbn. rewrite Hp. cbn.
  do 3 eexists. repeat split; reflexivity.
Qed.

Lemma shrine_reached_spawns_crystal_witness :
  reachable startState /\ currentTask startState = 1%Z /\
  within shrinePosition shrinePosition = true /\
  exists g' s c,
    animate shrinePosition startState = Normal g' /\
    currentTask g' = 2%Z /\
    shrineTarget g' = Some s /\
    position s = shrinePosition /\
    material s = Some (mkMaterial 0x00FF00 false) /\
    crystalObject g' = Some c /\
    crystalVisible g' = true /\
    position c =
      mkVector3 (x (position s) + 1.5)%float (y (position s) - 1.0)%float
        (z (position s)) /\
    position c = mkVector3 16.5 4 20 /\
    taskInfoElement g' =
      Some "Task 2: Collect the Sacred Crystal (Blue Crystal)"%string.
Proof.
  split; [exact reachable_startState|].
  split; [reflexivity|]. split; [reflexivity|].
  apply (shrine_reached_spawns_crystal startState shrinePosition).
  - exact reachable_startState.
  - reflexivity.
  - reflexivity.
Defined.

(** C2: in every state of a run, a held crystal means the current task is
    3 (AwaitingDelivery). *)
Theorem hasCrystal_only_in_task3 g :
  reachable g -> hasCrystal g = true -> currentTask g = 3%Z.
Proof.
  intros Hr Hh. apply reachable_Inv in Hr.
  destruct (Inv_phase g Hr) as (c & _ & Hph & _).
  destruct Hph; (reflexivity || discriminate Hh).
Qed.

Lemma hasCrystal_only_in_task3_witness :
  reachable afterCrystal /\ hasCrystal afterCrystal = true /\
  currentTask afterCrystal = 3%Z.
Proof.
  assert (Hr : reachable afterCrystal).
  { do 2 apply reach_step. exact reachable_startState. }
  split; [exact Hr|]. split; [reflexivity|].
  apply (hasCrystal_only_in_task3 afterCrystal Hr). reflexivity.
Defined.

(** C3: in every state of a run whose task has a guard, a frame changes the
    task exactly when the computed distance from the player to the guard's
    target is strictly below 3.0; at a distance of exactly 3.0, or of 3.001,
    the task stays, and at 2.999 it advances. *)
Theorem transition_iff_strictly_within_radius g t p :
  reachable g -> guardTarget g = Some t ->
  (advances p g = true <-> (distanceTo p (position t) <? 3.0)%float = true) /\
  (distanceTo p (position t) = 3.0%float -> advances p g = false) /\
  (distanceTo p (position t) = 3.001%float -> advances p g = false) /\
  (distanceTo p (position t) = 2.999%float -> advances p g = true).
Proof.
  intros Hr Ht. apply reachable_Inv in Hr.
  assert (Hiff : advances p g = true <->
                 (distanceTo p (position t) <? 3.0)%float = true).
  { destruct Hr as [pl sh cr vi el k h txt log Hsp Hsm Hep Hem Hph].
    crush_object sh. crush_object el.
    destruct mat as [ms|]; [|congruence].
    destruct mat0 as [me|]; [|congruence].
    unfold advances.
    destruct Hph as [c Hc|c Hc Hp|c Hc|c Hc]; crush_object c;
      unfold guardTarget in Ht; cbn in Ht; inversion Ht; subst t;
      unfold distanceTo, distanceToSquared; unfold_js; cbn;
      split_tests; cbn; split; intros H; (reflexivity || discriminate H). }
  split; [exact Hiff|].
  assert (Hnot : forall d, (d <? 3.0)%float = false ->
                 distanceTo p (position t) = d -> advances p g = false).
  { intros d Hd Heq. apply not_true_is_false. intros Ha.
    apply Hiff in Ha. rewrite Heq, Hd in Ha. discriminate Ha. }
  split; [apply Hnot; reflexivity|].
  split; [apply Hnot; reflexivity|].
  intros Heq. apply Hiff. rewrite Heq. reflexivity.
Qed.

Lemma transition_iff_strictly_within_radius_witness :
  (distanceTo (belowShrine 3.0) shrinePosition = 3.0%float /\
   advances (belowShrine 3.0) startState = false) /\
  (distanceTo (belowShrine 3.001) shrinePosition = 3.001%float /\
   advances (belowShrine 3.001) startState = false) /\
  (distanceTo (belowShrine 2.999) shrinePosition = 2.999%float /\
   advances (belowShrine 2.999) startState = true).
Proof.
  assert (Ht : guardTarget startState
               = Some (mkObject3D shrinePosition noRotation (Some SceneRef)
                         (Some shrineMaterial))) by reflexivity.
  pose proof (fun p =>
    transition_iff_strictly_within_radius startState _ p
      reachable_startState Ht) as H.
  split; [|split]; (split; [reflexivity|]).
  - apply (proj1 (proj2 (H (belowShrine 3.0)))). reflexivity.
  - apply (proj1 (proj2 (proj2 (H (belowShrine 3.001))))). reflexivity.
  - apply (proj2 (proj2 (proj2 (H (belowShrine 2.999))))). reflexivity.
Defined.

(** C4, as the specification states it, fails: in task 2 with the player
    away from the crystal no guard passes, and the check still turns the
    crystal, from 0.02 to 0.04 about y. *)
Lemma failed_guard_still_spins_crystal :
  reachable afterShrine /\
  step (Frame playerStart) afterShrine
  = state_of (checkCurrentTaskCompletion
                (movePlayerTo playerStart afterShrine)) /\
  guardPasses (movePlayerTo playerStart afterShrine) = false /\
  option_map rotation (crystalObject (movePlayerTo playerStart afterShrine))
  = Some (mkEuler 0 0.02 0) /\
  option_map rotation
    (crystalObject
       (state_of (checkCurrentTaskCompletion
                    (movePlayerTo playerStart afterShrine))))
  = Some (mkEuler 0 (0.02 + 0.02) 0) /\
  checkCurrentTaskCompletion (movePlayerTo playerStart afterShrine)
  <> Normal (movePlayerTo playerStart afterShrine).
Proof.
  split; [apply reach_step; exact reachable_startState|].
  repeat split; try reflexivity.
  intros H. apply (f_equal state_of) in H.
  apply (f_equal (fun g => option_map (fun c => ey (rotation c))
                             (crystalObject g))) in H.
  vm_compute in H. discriminate H.
Qed.

(** C4, amended: when the guard of the current task does not pass, the
    check completes normally and changes nothing but the crystal's rotation:
    a crystal that is in the scene is turned by 0.02 about y, and a crystal
    that is not is left as it is. *)
Theorem failed_guard_changes_only_crystal_rotation g p :
  playerPosition g = Some p -> guardPasses g = false ->
  exists g',
    checkCurrentTaskCompletion g = Normal g' /\
    withoutCrystalRotation g' = withoutCrystalRotation g /\
    crystalVisible g' = crystalVisible g /\
    crystalObject g' =
      (if crystalVisible g then option_map turned (crystalObject g)
       else crystalObject g).
Proof.
  intros Hp Hg. rewrite (guard_fails_check g Hg).
  unfold playerPosition in Hp.
  destruct (playerObjectContainer g) as [pl|]; [clear Hp|discriminate Hp].
  unfold spinCrystal, crystalVisible, withoutCrystalRotation.
  destruct (crystalObject g) as [c|] eqn:Hc; cbn.
  - destruct (parentIsScene g c) eqn:Hvis; cbn.
    + eexists. split; [reflexivity|]. cbn.
      destruct g; cbn in *. rewrite Hc. cbn. unfold parentIsScene. cbn.
      repeat split. exact Hvis.
    + exists g. rewrite Hc. cbn. rewrite Hvis. auto.
  - exists g. rewrite Hc. auto.
Qed.

Lemma failed_guard_changes_only_crystal_rotation_witness :
  playerPosition (movePlayerTo playerStart afterShrine) = Some playerStart /\
  guardPasses (movePlayerTo playerStart afterShrine) = false /\
  exists g',
    checkCurrentTaskCompletion (movePlayerTo playerStart afterShrine)
    = Normal g' /\
    withoutCrystalRotation g'
    = withoutCrystalRotation (movePlayerTo playerStart afterShrine) /\
    crystalVisible g'
    = crystalVisible (movePlayerTo playerStart afterShrine) /\
    crystalObject g' =
      (if crystalVisible (movePlayerTo playerStart afterShrine)
       then option_map turned
              (crystalObject (movePlayerTo playerStart afterShrine))
       else crystalObject (movePlayerTo playerStart afterShrine)).
Proof.
  split; [reflexivity|]. split; [reflexivity|].
  apply (failed_guard_changes_only_crystal_rotation
           (movePlayerTo playerStart afterShrine) playerStart);
    reflexivity.
Defined.

(** C5: in task 3, with the player and the elder in place, the check moves
    to task 4 exactly when the crystal is held and the player is strictly
    within 3.0 of the elder; it then completes normally with the crystal
    given away, the elder's colour set to the lighter grey 0xA0A0A0 and the
    completion text shown.  Without the crystal the task stays 3, also with
    the player exactly at the elder's position. *)
Theorem delivery_needs_crystal_and_proximity g pl e m txt :
  currentTask g = 3%Z ->
  playerObjectContainer g = Some pl ->
  elderPlaceholder g = Some e -> material e = Some m ->
  taskInfoElement g = Some txt ->
  (currentTask (state_of (checkCurrentTaskCompletion g)) = 4%Z <->
   hasCrystal g = true /\ within (position pl) (position e) = true) /\
  (currentTask (state_of (checkCurrentTaskCompletion g)) = 4%Z ->
   exists g' e',
     checkCurrentTaskCompletion g = Normal g' /\
     hasCrystal g' = false /\
     elderPlaceholder g' = Some e' /\
     option_map color (material e') = Some 0xA0A0A0%Z /\
     position e' = position e /\
     taskInfoElement g' =
       Some "All Tasks Complete! The tribe is safe for now."%string) /\
  (hasCrystal g = false ->
   exists g',
     checkCurrentTaskCompletion g = Normal g' /\
     currentTask g' = 3%Z /\ hasCrystal g' = false /\
     elderPlaceholder g' = Some e /\ taskInfoElement g' = Some txt) /\
  (hasCrystal g = false -> position pl = position e ->
   currentTask (state_of (checkCurrentTaskCompletion g)) = 3%Z).
Proof.
  intros Ht Hpl He Hm Htxt.
  destruct g as [sc plo sh cr vi el t h tx log]. cbn in *. subst.
  destruct e as [pos rot par mat]. cbn in *. subst.
  unfold_js. cbn.
  destruct h; cbn; split_tests.
  all: repeat match goal with
         | |- context [match ?c with Some _ => _ | None => _ end] =>
             destruct c; cbn
         | |- context [if ?b then _ else _] => destruct b; cbn
         end.
  all: repeat split; intros; try discriminate; try reflexivity;
       try (match goal with H : _ /\ _ |- _ => destruct H; discriminate end);
       try (do 2 eexists; repeat split; reflexivity);
       try (eexists; repeat split; reflexivity).
Qed.

Lemma delivery_needs_crystal_and_proximity_witness :
  (currentTask (state_of (checkCurrentTaskCompletion carrying)) = 4%Z <->
   hasCrystal carrying = true /\
   within elderPosition elderPosition = true) /\
  (hasCrystal emptyHanded = false /\
   playerPosition emptyHanded = Some elderPosition /\
   currentTask (state_of (checkCurrentTaskCompletion emptyHanded)) = 3%Z).
Proof.
  split.
  - apply (delivery_needs_crystal_and_proximity carrying
             (mkObject3D elderPosition noRotation (Some SceneRef) None)
             (mkObject3D elderPosition noRotation (Some SceneRef)
                (Some elderMaterial))
             elderMaterial "Loading assets..."); reflexivity.
  - split; [reflexivity|]. split; [reflexivity|].
    apply (delivery_needs_crystal_and_proximity emptyHanded
             (mkObject3D elderPosition noRotation (Some SceneRef) None)
             (mkObject3D elderPosition noRotation (Some SceneRef)
                (Some elderMaterial))
             elderMaterial "Loading assets..."); reflexivity.
Defined.

(** C6: in task 2 with the crystal missing or not in the scene, the check
    completes normally and leaves the state as it is, wherever the player
    is: the guard is false and nothing is thrown. *)
Theorem hidden_crystal_blocks_task2 g :
  currentTask g = 2%Z -> crystalVisible g = false ->
  guardPasses g = false /\
  checkCurrentTaskCompletion g = Normal g /\
  forall p, animate p g = Normal (movePlayerTo p g).
Proof.
  intros Ht Hv.
  assert (Hcheck : forall g0, currentTask g0 = 2%Z ->
            crystalVisible g0 = false ->
            guardPasses g0 = false /\ checkCurrentTaskCompletion g0 = Normal g0).
  { clear. intros g Ht Hv.
    unfold guardPasses, checkCurrentTaskCompletion, andThen, when.
    rewrite Ht. unfold crystalReached, spinCrystal.
    unfold crystalVisible in Hv.
    destruct (playerObjectContainer g) as [pl|]; [|auto].
    destruct (crystalObject g) as [c|] eqn:Hc; cbn.
    - rewrite Hv. cbn. rewrite Hc, Hv. auto.
    - rewrite Hc. auto. }
  destruct (Hcheck g Ht Hv) as [Hg Hc].
  split; [exact Hg|]. split; [exact Hc|].
  intros p. unfold animate, andThen, assign.
  destruct (playerObjectContainer g) as [pl|] eqn:Hpl.
  - apply Hcheck.
    + unfold movePlayerTo. rewrite Hpl. exact Ht.
    + unfold movePlayerTo. rewrite Hpl. exact Hv.
  - unfold movePlayerTo. rewrite Hpl. reflexivity.
Qed.

Lemma hidden_crystal_blocks_task2_witness :
  currentTask neverSpawned = 2%Z /\ crystalVisible neverSpawned = false /\
  guardPasses neverSpawned = false /\
  checkCurrentTaskCompletion neverSpawned = Normal neverSpawned /\
  forall p, animate p neverSpawned = Normal (movePlayerTo p neverSpawned).
Proof.
  split; [reflexivity|]. split; [reflexivity|].
  apply (hidden_crystal_blocks_task2 neverSpawned); reflexivity.
Defined.

Lemma Inv_complete_step e g :
  Inv g -> currentTask g = 4%Z ->
  currentTask (step e g) = 4%Z /\ threw (handle e g) = false.
Proof.
  intros [pl sh cr vi el t h txt log Hsp Hsm Hep Hem Hph] Ht.
  cbn in Ht. subst t. inversion Hph as [| | |c Hc]; subst.
  crush_object cr. destruct e as [p|]; unfold_js; cbn; auto.
Qed.

Lemma Inv_complete_frame p g :
  Inv g -> currentTask g = 4%Z -> animate p g = Normal (movePlayerTo p g).
Proof.
  intros [pl sh cr vi el t h txt log Hsp Hsm Hep Hem Hph] Ht.
  cbn in Ht. subst t. inversion Hph as [| | |c Hc]; subst.
  crush_object cr. unfold_js. cbn. reflexivity.
Qed.

(** C7: once a run is in task 4, a frame at any player position completes
    normally and changes nothing but the player's own position; the task
    has no guard, and whatever events follow, the task stays 4 and nothing
    is thrown. *)
Theorem complete_is_terminal g :
  reachable g -> currentTask g = 4%Z ->
  guardTarget g = None /\
  (forall p, guardPasses (movePlayerTo p g) = false) /\
  (forall p, animate p g = Normal (movePlayerTo p g)) /\
  (forall es, currentTask (run es g) = 4%Z) /\
  (forall es e, threw (handle e (run es g)) = false).
Proof.
  intros Hr Ht.
  assert (Hrun : forall es g0, reachable g0 -> currentTask g0 = 4%Z ->
            currentTask (run es g0) = 4%Z).
  { clear. induction es as [|e es IH]; intros g Hr Ht; cbn.
    - exact Ht.
    - apply IH.
      + constructor. exact Hr.
      + apply Inv_complete_step; [apply reachable_Inv; exact Hr|exact Ht]. }
  split; [unfold guardTarget; rewrite Ht; reflexivity|].
  split.
  { intros p. unfold guardPasses, movePlayerTo.
    destruct (playerObjectContainer g) as [pl|] eqn:Hpl; cbn.
    - rewrite Ht. reflexivity.
    - rewrite Hpl. reflexivity. }
  split; [intros p; apply Inv_complete_frame;
          [apply reachable_Inv; exact Hr|exact Ht]|].
  split; [intros es; apply Hrun; assumption|].
  intros es e. apply Inv_complete_step.
  - apply reachable_Inv, reachable_run, Hr.
  - apply Hrun; assumption.
Qed.

Lemma complete_is_terminal_witness :
  reachable afterDelivery /\ currentTask afterDelivery = 4%Z /\
  guardTarget afterDelivery = None /\
  (forall p, guardPasses (movePlayerTo p afterDelivery) = false) /\
  (forall p, animate p afterDelivery = Normal (movePlayerTo p afterDelivery)) /\
  (forall es, currentTask (run es afterDelivery) = 4%Z) /\
  (forall es e, threw (handle e (run es afterDelivery)) = false).
Proof.
  assert (Hr : reachable afterDelivery).
  { do 3 apply reach_step. exact reachable_startState. }
  split; [exact Hr|]. split; [reflexivity|].
  apply (complete_is_terminal afterDelivery Hr). reflexivity.
Defined.

(** C8: running the effects of a transition a second time changes nothing
    in the world (task, inventory, objects with their visibility,
    appearance and position, text), and throws exactly when the first run
    did; [spawnCrystal] and [updateTaskUI] run twice even complete exactly
    as they do run once. *)
Theorem transition_effects_idempotent g :
  (world (state_of (twice completeTask1 g)) = world (state_of (completeTask1 g))
   /\ threw (twice completeTask1 g) = threw (completeTask1 g)) /\
  (world (state_of (twice completeTask2 g)) = world (state_of (completeTask2 g))
   /\ threw (twice completeTask2 g) = threw (completeTask2 g)) /\
  (world (state_of (twice completeTask3 g)) = world (state_of (completeTask3 g))
   /\ threw (twice completeTask3 g) = threw (completeTask3 g)) /\
  twice spawnCrystal g = spawnCrystal g /\
  twice updateTaskUI g = updateTaskUI g.
Proof.
  destruct g as [sc pl sh cr vi el t h txt log].
  unfold twice.
  repeat split.
  - destruct sh as [[spos srot spar [sm|]]|], cr as [[cpos crot [cp|] cmat]|],
      sc as [s|], txt as [tx|];
      try destruct cp; try destruct s; unfold_js; cbn; reflexivity.
  - destruct sh as [[spos srot spar [sm|]]|], cr as [[cpos crot [cp|] cmat]|],
      sc as [s|], txt as [tx|];
      try destruct cp; try destruct s; unfold_js; cbn; reflexivity.
  - destruct cr as [[cpos crot [cp|] cmat]|], sc as [s|], txt as [tx|];
      try destruct cp; try destruct s; unfold_js; cbn; reflexivity.
  - destruct cr as [[cpos crot [cp|] cmat]|], sc as [s|], txt as [tx|];
      try destruct cp; try destruct s; unfold_js; cbn; reflexivity.
  - destruct el as [[epos erot epar [em|]]|], txt as [tx|];
      unfold_js; cbn; reflexivity.
  - destruct el as [[epos erot epar [em|]]|], txt as [tx|];
      unfold_js; cbn; reflexivity.
  - destruct sh as [[spos srot spar smat]|], cr as [[cpos crot [cp|] cmat]|],
      sc as [s|]; try destruct cp; try destruct s; unfold_js; cbn;
      reflexivity.
  - destruct txt as [tx|]; unfold_js; cbn; reflexivity.
Qed.

Lemma shownAfterUpdate_spec g txt :
  taskInfoElement g = Some txt ->
  shownAfterUpdate g = Some (taskText (currentTask g) (hasCrystal g)).
Proof.
  intros H. unfold shownAfterUpdate, updateTaskUI, setTaskInfoText.
  rewrite H. reflexivity.
Qed.

Lemma taskText_listed t h : In (taskText t h) taskTexts.
Proof.
  unfold taskTexts.
  destruct t as [|[[|[]|]|[|[]|]|]|], h; cbn; tauto.
Qed.

(** C9, as the specification states it, fails: two states in task 3 that
    differ in the inventory flag get different texts. *)
Lemma task3_has_two_texts :
  currentTask emptyHanded = currentTask carrying /\
  shownAfterUpdate emptyHanded
  = Some "Task 3: Find the Elder... (Missing Crystal)"%string /\
  shownAfterUpdate carrying
  = Some "Task 3: Deliver the Crystal to the Elder (Grey Capsule) at the Village (Green Platform)"%string /\
  shownAfterUpdate emptyHanded <> shownAfterUpdate carrying.
Proof.
  repeat split. intros H. vm_compute in H. discriminate H.
Qed.

(** C9, amended: the text [updateTaskUI] shows is one of six fixed strings,
    determined by the task number together with the inventory flag; the
    flag matters in task 3 only, so two states with the same task number get
    the same text when they agree on the flag, when the task is not 3, or
    when both are states of a run. *)
Theorem task_text_determined_by_task_and_inventory g1 g2 :
  taskInfoElement g1 <> None -> taskInfoElement g2 <> None ->
  currentTask g1 = currentTask g2 ->
  (exists s, shownAfterUpdate g1 = Some s /\ In s taskTexts) /\
  (hasCrystal g1 = hasCrystal g2 ->
   shownAfterUpdate g1 = shownAfterUpdate g2) /\
  (currentTask g1 <> 3%Z -> shownAfterUpdate g1 = shownAfterUpdate g2) /\
  (reachable g1 -> reachable g2 ->
   shownAfterUpdate g1 = shownAfterUpdate g2).
Proof.
  intros H1 H2 Ht.
  destruct (taskInfoElement g1) as [t1|] eqn:E1; [clear H1|congruence].
  destruct (taskInfoElement g2) as [t2|] eqn:E2; [clear H2|congruence].
  rewrite (shownAfterUpdate_spec g1 t1 E1), (shownAfterUpdate_spec g2 t2 E2).
  split; [eexists; split; [reflexivity|apply taskText_listed]|].
  rewrite <- Ht.
  split; [intros Hh; rewrite Hh; reflexivity|].
  split.
  - intros Hn. f_equal. unfold taskText.
    destruct (currentTask g1) as [|[[|[]|]|[|[]|]|]|]; try reflexivity.
    congruence.
  - intros Hr1 Hr2. f_equal.
    apply reachable_Inv in Hr1, Hr2.
    destruct (Inv_phase g1 Hr1) as (c1 & _ & P1 & _).
    destruct (Inv_phase g2 Hr2) as (c2 & _ & P2 & _).
    rewrite <- Ht in P2.
    destruct P1; inversion P2; reflexivity.
Qed.

Lemma task_text_determined_by_task_and_inventory_witness :
  shownAfterUpdate afterCrystal
  = shownAfterUpdate (step (Frame playerStart) afterCrystal).
Proof.
  assert (Hr : reachable afterCrystal).
  { do 2 apply reach_step. exact reachable_startState. }
  apply (task_text_determined_by_task_and_inventory afterCrystal
           (step (Frame playerStart) afterCrystal)).
  - discriminate.
  - discriminate.
  - reflexivity.
  - exact Hr.
  - apply reach_step. exact Hr.
Defined.

(** C10: in every state of a run the crystal is in the scene exactly when
    the current task is 2: [init] leaves it outside the scene, an event
    brings it in exactly when it moves the task from 1 to 2, and takes it
    out exactly when it moves the task from 2 to 3. *)
Theorem crystal_visible_iff_task2 g :
  reachable g ->
  (crystalVisible g = true <-> currentTask g = 2%Z) /\
  (forall dom, init (moduleState dom) = Normal g -> crystalVisible g = false) /\
  (forall e,
     (crystalVisible g = false /\ crystalVisible (step e g) = true <->
      currentTask g = 1%Z /\ currentTask (step e g) = 2%Z) /\
     (crystalVisible g = true /\ crystalVisible (step e g) = false <->
      currentTask g = 2%Z /\ currentTask (step e g) = 3%Z)).
Proof.
  intros Hr. apply reachable_Inv in Hr.
  pose proof (Inv_crystalVisible g Hr) as Hv.
  split; [exact Hv|]. split.
  - intros dom Hi. rewrite (init_result _ _ Hi). reflexivity.
  - intros e.
    pose proof (Inv_crystalVisible _ (proj1 (Inv_step e g Hr))) as Hv'.
    pose proof (Inv_task_step e g Hr) as Hs.
    destruct (crystalVisible g), (crystalVisible (step e g));
      repeat split; intros;
      repeat match goal with
        | H : _ /\ _ |- _ => destruct H
        | H : false = true |- _ => discriminate H
        | H : true = false |- _ => discriminate H
        end;
      try reflexivity;
      try (assert (currentTask g = 2%Z) by (apply Hv; reflexivity));
      try (assert (currentTask (step e g) = 2%Z) by (apply Hv'; reflexivity));
      try (assert (currentTask g <> 2%Z)
             by (intros X; apply Hv in X; discriminate X));
      try (assert (currentTask (step e g) <> 2%Z)
             by (intros X; apply Hv' in X; discriminate X));
      try lia.
Qed.

Lemma crystal_visible_iff_task2_witness :
  reachable afterShrine /\
  (crystalVisible afterShrine = true <-> currentTask afterShrine = 2%Z) /\
  (crystalVisible afterShrine = true /\
   crystalVisible (step (Frame crystalSpawnPosition) afterShrine) = false <->
   currentTask afterShrine = 2%Z /\
   currentTask (step (Frame crystalSpawnPosition) afterShrine) = 3%Z).
Proof.
  assert (Hr : reachable afterShrine).
  { apply reach_step. exact reachable_startState. }
  split; [exact Hr|].
  destruct (crystal_visible_iff_task2 afterShrine Hr) as (Hv & _ & He).
  split; [exact Hv|].
  exact (proj2 (He (Frame crystalSpawnPosition))).
Defined.

(** A further property: in any state at all, initialised or not, a frame
    changes the task only if the current task has a guard target and the
    player is strictly within the completion radius of it. *)
Theorem advance_only_within_radius g p :
  advances p g = true ->
  exists t, guardTarget g = Some t /\ within p (position t) = true.
Proof.
  unfold advances, step, handle, animate, andThen, assign.
  destruct (playerObjectContainer g) as [pl|] eqn:Hpl;
    [|cbn; rewrite Z.eqb_refl; discriminate].
  destruct (guardPasses (movePlayerTo p g)) eqn:Hg.
  - intros _.
    destruct (guardPasses_target (movePlayerTo p g) (setPosition p pl))
      as (t & Ht & Hw); [unfold movePlayerTo; rewrite Hpl; reflexivity|exact Hg|].
    exists t. split; [|exact Hw].
    unfold movePlayerTo in Ht. rewrite Hpl in Ht. exact Ht.
  - rewrite (guard_fails_check _ Hg).
    assert (Hsame : currentTask (movePlayerTo p g) = currentTask g)
      by (unfold movePlayerTo; rewrite Hpl; reflexivity).
    destruct (playerObjectContainer (movePlayerTo p g));
      [rewrite currentTask_spinCrystal|cbn];
      rewrite Hsame, Z.eqb_refl; discriminate.
Qed.

(** A further property: no event of a run throws; every frame and every
    asset notification completes normally. *)
Theorem run_never_throws g e :
  reachable g -> threw (handle e g) = false.
Proof.
  intros Hr. apply Inv_step, reachable_Inv, Hr.
Qed.

Lemma run_never_throws_witness :
  reachable afterShrine /\
  threw (handle (Frame crystalSpawnPosition) afterShrine) = false.
Proof.
  assert (Hr : reachable afterShrine).
  { apply reach_step. exact reachable_startState. }
  split; [exact Hr|].
  apply (run_never_throws afterShrine (Frame crystalSpawnPosition) Hr).
Defined.

Lemma advance_only_within_radius_witness :
  advances shrinePosition startState = true /\
  exists t, guardTarget startState = Some t /\
            within shrinePosition (position t) = true.
Proof.
  split; [reflexivity|].
  apply (advance_only_within_radius startState shrinePosition). reflexivity.
Defined.

(** ** Further properties of the code *)

(** *** The keyboard and [updatePlayer] *)

Lemma SFltb_asym a b : SFltb a b = true -> SFltb b a = false.
Proof.
  assert (Hpos : forall p q,
            Pos.compare_cont Eq q p = CompOpp (Pos.compare_cont Eq p q)).
  { intros p q. rewrite Pos.compare_cont_antisym. reflexivity. }
  unfold SFltb.
  destruct a as [sa|sa| |sa ma ea], b as [sb|sb| |sb mb eb]; cbn;
    try destruct sa; try destruct sb; try discriminate; try reflexivity;
    rewrite (Z.compare_antisym ea eb), (Hpos ma mb);
    destruct (ea ?= eb)%Z; cbn; try discriminate; try reflexivity;
    destruct (Pos.compare_cont Eq ma mb); cbn; try discriminate; reflexivity.
Qed.

Lemma ltb_asym (a b : float) :
  (a <? b)%float = true -> (b <? a)%float = false.
Proof. rewrite !ltb_spec. apply SFltb_asym. Qed.

Lemma ltb_irrefl (a : float) : (a <? a)%float = false.
Proof.
  destruct (a <? a)%float eqn:E; [|reflexivity].
  rewrite (ltb_asym a a E) in E. discriminate E.
Qed.

(** [Math.max(groundLevel, v)] is never below the ground level, whatever
    [v] is. *)
Lemma Math_max_groundLevel v :
  (Math_max groundLevel v <? groundLevel)%float = false.
Proof.
  unfold Math_max.
  change (PrimFloat.is_nan groundLevel) with false.
  change (neg_infinity <? groundLevel)%float with true.
  cbv beta iota zeta.
  change (PrimFloat.classify groundLevel) with PNormal.
  destruct (PrimFloat.is_nan v); [reflexivity|].
  destruct (PrimFloat.classify v); cbv iota;
    (destruct (groundLevel <? v)%float eqn:E;
     [apply ltb_asym; exact E|reflexivity]).
Qed.



Lemma whenKey_up ks code f o : isDown ks code = false -> whenKey ks code f o = o.
Proof. intros H. unfold whenKey. rewrite H. reflexivity. Qed.

(** With none of the keys W, S, A, D, E, Q down, [updatePlayer] changes
    nothing, whatever the frame time and the other keys. *)
Theorem updatePlayer_idle translateZ rotateY ks dt g :
  (forall code, In code movementKeys -> isDown ks code = false) ->
  updatePlayer translateZ rotateY ks dt g = Normal g.
Proof.
  intros H. unfold updatePlayer.
  destruct (playerObjectContainer g) as [pl|] eqn:Hpl; [|reflexivity].
  cbv zeta.
  rewrite !whenKey_up by (apply H; cbn; tauto).
  destruct g; cbn in *. rewrite Hpl. reflexivity.
Qed.

Lemma updatePlayer_idle_witness :
  updatePlayer translateZ_unturned rotateY_unseen
    (keysAfter [KeyDown "KeyW"; KeyDown "Space"; KeyUp "KeyW"]) 0.016
    afterShrine
  = Normal afterShrine.
Proof.
  apply (updatePlayer_idle translateZ_unturned rotateY_unseen).
  intros code Hin. cbn in Hin.
  repeat (destruct Hin as [<-|Hin]; [reflexivity|]). destruct Hin.
Defined.

(** [updatePlayer] never throws and changes nothing but the player object,
    which it never creates or removes; what it does depends on the six
    movement keys only. *)
Theorem updatePlayer_moves_only_player translateZ rotateY ks dt g :
  threw (updatePlayer translateZ rotateY ks dt g) = false /\
  forgetPlayer (state_of (updatePlayer translateZ rotateY ks dt g))
  = forgetPlayer g /\
  (playerObjectContainer (state_of (updatePlayer translateZ rotateY ks dt g))
   = None <-> playerObjectContainer g = None) /\
  forall ks',
    (forall code, In code movementKeys -> isDown ks' code = isDown ks code) ->
    updatePlayer translateZ rotateY ks' dt g
    = updatePlayer translateZ rotateY ks dt g.
Proof.
  unfold updatePlayer.
  destruct (playerObjectContainer g) as [pl|] eqn:Hpl.
  - cbv zeta. cbn. split; [reflexivity|]. split; [reflexivity|].
    split; [split; intros H; discriminate H|].
    intros ks' H. unfold whenKey.
    rewrite !H by (cbn; tauto). reflexivity.
  - cbn. split; [reflexivity|]. split; [reflexivity|].
    split; [tauto|]. reflexivity.
Qed.

(** A frame in which Q is down never leaves the player below the ground
    level 0.1: the new height is not less than 0.1, whatever the frame
    time, the other keys and the height before. *)
Theorem updatePlayer_ground_clamp translateZ rotateY ks dt g pl' :
  isDown ks "KeyQ" = true ->
  playerObjectContainer (state_of (updatePlayer translateZ rotateY ks dt g))
  = Some pl' ->
  (y (position pl') <? groundLevel)%float = false.
Proof.
  intros Hq. unfold updatePlayer.
  destruct (playerObjectContainer g) as [pl|] eqn:Hpl.
  - cbv zeta. cbn. unfold whenKey at 1. rewrite Hq.
    intros H. inversion H. cbn. apply Math_max_groundLevel.
  - cbn. rewrite Hpl. discriminate.
Qed.

Lemma updatePlayer_ground_clamp_witness :
  option_map (fun o => y (position o))
    (playerObjectContainer
       (state_of (updatePlayer translateZ_unturned rotateY_unseen
                    (keysAfter [KeyDown "KeyQ"]) 1.0 startState)))
  = Some groundLevel /\
  (groundLevel <? groundLevel)%float = false.
Proof.
  split; [reflexivity|].
  apply (updatePlayer_ground_clamp translateZ_unturned rotateY_unseen
           (keysAfter [KeyDown "KeyQ"]) 1.0 startState
           (mkObject3D (mkVector3 0 groundLevel 0) noRotation (Some SceneRef)
              None));
    reflexivity.
Defined.

(** *** The task logic never reads more of the player than its position *)

Lemma ignoresPlayer_andThen a b :
  ignoresPlayer a -> ignoresPlayer b -> ignoresPlayer (a ;; b).
Proof.
  intros Ha Hb v g. unfold andThen. rewrite Ha.
  destruct (a g) as [g'|g']; cbn; [apply Hb|reflexivity].
Qed.

Lemma ignoresPlayer_when c body :
  (forall v g, c (set_playerObjectContainer v g) = c g) ->
  ignoresPlayer body -> ignoresPlayer (when c body).
Proof.
  intros Hc Hb v g. unfold when. rewrite Hc.
  destruct (c g); [apply Hb|reflexivity].
Qed.

Ltac by_cases_on_state :=
  intros v [sc pl sh cr vi el t h txt log]; unfold_js; cbn;
  repeat match goal with
    | |- context [match ?d with _ => _ end] => destruct d; cbn
    end;
  reflexivity.

Lemma ignoresPlayer_console_log msg : ignoresPlayer (console_log msg).
Proof. by_cases_on_state. Qed.

Lemma ignoresPlayer_set_currentTask n : ignoresPlayer (assign (set_currentTask n)).
Proof. by_cases_on_state. Qed.

Lemma ignoresPlayer_set_hasCrystal b : ignoresPlayer (assign (set_hasCrystal b)).
Proof. by_cases_on_state. Qed.

Lemma ignoresPlayer_greenShrine : ignoresPlayer greenShrine.
Proof. by_cases_on_state. Qed.

Lemma ignoresPlayer_spawnCrystal : ignoresPlayer spawnCrystal.
Proof. by_cases_on_state. Qed.

Lemma ignoresPlayer_updateTaskUI : ignoresPlayer updateTaskUI.
Proof. by_cases_on_state. Qed.

Lemma ignoresPlayer_removeCrystal : ignoresPlayer removeCrystal.
Proof. by_cases_on_state. Qed.

Lemma ignoresPlayer_lightenElder : ignoresPlayer lightenElder.
Proof. by_cases_on_state. Qed.

Lemma ignoresPlayer_spinCrystal : ignoresPlayer spinCrystal.
Proof. by_cases_on_state. Qed.

Lemma ignoresPlayer_skip : ignoresPlayer skip.
Proof. intros v g. reflexivity. Qed.

Create HintDb player discriminated.
#[local] Hint Resolve ignoresPlayer_andThen ignoresPlayer_console_log
  ignoresPlayer_set_currentTask ignoresPlayer_set_hasCrystal
  ignoresPlayer_greenShrine ignoresPlayer_spawnCrystal
  ignoresPlayer_updateTaskUI ignoresPlayer_removeCrystal
  ignoresPlayer_lightenElder ignoresPlayer_spinCrystal ignoresPlayer_skip
  : player.

Lemma ignoresPlayer_checkAt p : ignoresPlayer (checkAt p).
Proof.
  assert (H1 : ignoresPlayer (when (shrineReached p) completeTask1)).
  { apply ignoresPlayer_when; [intros v []; reflexivity|].
    unfold completeTask1. auto 10 with player. }
  assert (H2 : ignoresPlayer (when (crystalReached p) completeTask2)).
  { apply ignoresPlayer_when; [intros v []; reflexivity|].
    unfold completeTask2. auto 10 with player. }
  assert (H3 : ignoresPlayer (when (elderReached p) completeTask3)).
  { apply ignoresPlayer_when; [intros v []; reflexivity|].
    unfold completeTask3. auto 10 with player. }
  intros v g. unfold checkAt.
  replace (currentTask (set_playerObjectContainer v g)) with (currentTask g)
    by (destruct g; reflexivity).
  destruct (currentTask g) as [|[[|[]|]|[|[]|]|]|];
    first [ apply (ignoresPlayer_andThen _ _ H1 ignoresPlayer_spinCrystal)
          | apply (ignoresPlayer_andThen _ _ H2 ignoresPlayer_spinCrystal)
          | apply (ignoresPlayer_andThen _ _ H3 ignoresPlayer_spinCrystal)
          | apply (ignoresPlayer_andThen _ _ ignoresPlayer_skip
                     ignoresPlayer_spinCrystal) ].
Qed.

Lemma check_is_checkAt g pl :
  playerObjectContainer g = Some pl ->
  checkCurrentTaskCompletion g = checkAt (position pl) g.
Proof.
  intros H. unfold checkCurrentTaskCompletion, checkAt. rewrite H. reflexivity.
Qed.

Lemma set_player_same g :
  set_playerObjectContainer (playerObjectContainer g) g = g.
Proof. destruct g; reflexivity. Qed.

Lemma check_on_player pl g :
  checkCurrentTaskCompletion (set_playerObjectContainer (Some pl) g)
  = mapCompletion (set_playerObjectContainer (Some pl))
      (checkAt (position pl) g).
Proof.
  rewrite (check_is_checkAt _ pl) by (destruct g; reflexivity).
  apply ignoresPlayer_checkAt.
Qed.

(** The task check never changes the player object, in any state
    whatsoever, and reads nothing of it but its position: two states that
    differ only in a player at the same position are checked alike. *)
Theorem check_reads_only_player_position g :
  playerObjectContainer (state_of (checkCurrentTaskCompletion g))
  = playerObjectContainer g /\
  forall pl pl',
    position pl = position pl' ->
    forgetPlayer
      (state_of (checkCurrentTaskCompletion
                   (set_playerObjectContainer (Some pl) g)))
    = forgetPlayer
        (state_of (checkCurrentTaskCompletion
                     (set_playerObjectContainer (Some pl') g))) /\
    threw (checkCurrentTaskCompletion (set_playerObjectContainer (Some pl) g))
    = threw (checkCurrentTaskCompletion
               (set_playerObjectContainer (Some pl') g)).
Proof.
  split.
  - destruct (playerObjectContainer g) as [pl|] eqn:Hpl.
    + rewrite <- (set_player_same g) at 1. rewrite Hpl, check_on_player.
      destruct (checkAt (position pl) g) as [[]|[]]; reflexivity.
    + unfold checkCurrentTaskCompletion. rewrite Hpl. cbn. exact Hpl.
  - intros pl pl' Hpos. rewrite !check_on_player, Hpos.
    destruct (checkAt (position pl') g) as [[]|[]]; split; reflexivity.
Qed.

Lemma updatePlayer_result translateZ rotateY ks dt g pl :
  playerObjectContainer g = Some pl ->
  exists pl1,
    updatePlayer translateZ rotateY ks dt g
    = Normal (set_playerObjectContainer (Some pl1) g).
Proof.
  intros H. unfold updatePlayer. rewrite H. cbv zeta. eexists. reflexivity.
Qed.

(** A frame of the game, with the player moved by [updatePlayer] from the
    keys and the frame time, does to the task state exactly what the frame
    [animate p] does, where [p] is the position [updatePlayer] leaves the
    player at: the same completion, and the same state apart from the
    player object, which is the one [updatePlayer] left. *)
Theorem animateFrame_is_animate_at_new_position
    translateZ rotateY ks dt g pl' :
  playerObjectContainer (state_of (updatePlayer translateZ rotateY ks dt g))
  = Some pl' ->
  forgetPlayer (state_of (animateFrame translateZ rotateY ks dt g))
  = forgetPlayer (state_of (animate (position pl') g)) /\
  threw (animateFrame translateZ rotateY ks dt g)
  = threw (animate (position pl') g) /\
  playerObjectContainer (state_of (animateFrame translateZ rotateY ks dt g))
  = Some pl'.
Proof.
  unfold animateFrame, animate, andThen, assign, movePlayerTo.
  destruct (playerObjectContainer g) as [pl|] eqn:Hpl.
  - destruct (updatePlayer_result translateZ rotateY ks dt g pl Hpl)
      as [pl1 Hup].
    rewrite Hup. cbn [state_of]. intros H.
    replace pl1 with pl' in * by (destruct g; cbn in H; congruence).
    rewrite !check_on_player.
    change (position (setPosition (position pl') pl)) with (position pl').
    destruct (checkAt (position pl') g) as [[]|[]]; repeat split; reflexivity.
  - unfold updatePlayer. rewrite Hpl. cbn. rewrite Hpl. discriminate.
Qed.

Lemma animateFrame_is_animate_at_new_position_witness :
  forgetPlayer
    (state_of (animateFrame translateZ_unturned rotateY_unseen
                 (keysAfter [KeyDown "KeyW"]) 4.0
                 (movePlayerTo shrinePosition startState)))
  = forgetPlayer
      (state_of (animate (mkVector3 15 5 40)
                   (movePlayerTo shrinePosition startState))) /\
  threw (animateFrame translateZ_unturned rotateY_unseen
           (keysAfter [KeyDown "KeyW"]) 4.0
           (movePlayerTo shrinePosition startState))
  = threw (animate (mkVector3 15 5 40)
             (movePlayerTo shrinePosition startState)) /\
  playerObjectContainer
    (state_of (animateFrame translateZ_unturned rotateY_unseen
                 (keysAfter [KeyDown "KeyW"]) 4.0
                 (movePlayerTo shrinePosition startState)))
  = Some (mkObject3D (mkVector3 15 5 40) noRotation (Some SceneRef) None).
Proof.
  apply (animateFrame_is_animate_at_new_position translateZ_unturned
           rotateY_unseen (keysAfter [KeyDown "KeyW"]) 4.0
           (movePlayerTo shrinePosition startState)
           (mkObject3D (mkVector3 15 5 40) noRotation (Some SceneRef) None)).
  reflexivity.
Defined.

(** *** What the task logic leaves alone *)

Lemma untouched_refl g : untouched g g.
Proof. repeat split. Qed.

Lemma untouched_trans g1 g2 g3 :
  untouched g1 g2 -> untouched g2 g3 -> untouched g1 g3.
Proof.
  unfold untouched. intros (A1 & A2 & A3 & A4 & A5) (B1 & B2 & B3 & B4 & B5).
  repeat split; congruence.
Qed.

Lemma keeps_andThen a b : keeps a -> keeps b -> keeps (a ;; b).
Proof.
  intros Ha Hb g. unfold andThen. specialize (Ha g).
  destruct (a g) as [g'|g']; cbn in *; [|exact Ha].
  apply (untouched_trans _ g'); [exact Ha|apply Hb].
Qed.

Lemma keeps_when c body : keeps body -> keeps (when c body).
Proof.
  intros Hb g. unfold when. destruct (c g); [apply Hb|apply untouched_refl].
Qed.

Ltac keeps_by_cases :=
  intros [sc pl sh cr vi el t h txt log]; unfold untouched, placement;
  unfold_js; cbn;
  repeat match goal with
    | |- context [match ?d with _ => _ end] => destruct d; cbn
    end;
  repeat split; reflexivity.

Lemma keeps_console_log msg : keeps (console_log msg).
Proof. keeps_by_cases. Qed.

Lemma keeps_set_currentTask n : keeps (assign (set_currentTask n)).
Proof. keeps_by_cases. Qed.

Lemma keeps_set_hasCrystal b : keeps (assign (set_hasCrystal b)).
Proof. keeps_by_cases. Qed.

Lemma keeps_greenShrine : keeps greenShrine.
Proof. keeps_by_cases. Qed.

Lemma keeps_spawnCrystal : keeps spawnCrystal.
Proof. keeps_by_cases. Qed.

Lemma keeps_updateTaskUI : keeps updateTaskUI.
Proof. keeps_by_cases. Qed.

Lemma keeps_removeCrystal : keeps removeCrystal.
Proof. keeps_by_cases. Qed.

Lemma keeps_lightenElder : keeps lightenElder.
Proof. keeps_by_cases. Qed.

Lemma keeps_spinCrystal : keeps spinCrystal.
Proof. keeps_by_cases. Qed.

Lemma keeps_skip : keeps skip.
Proof. intros g. apply untouched_refl. Qed.

Create HintDb frame discriminated.
#[local] Hint Resolve keeps_andThen keeps_when keeps_console_log
  keeps_set_currentTask keeps_set_hasCrystal keeps_greenShrine
  keeps_spawnCrystal keeps_updateTaskUI keeps_removeCrystal
  keeps_lightenElder keeps_spinCrystal keeps_skip : frame.

Lemma keeps_checkAt p : keeps (checkAt p).
Proof.
  intros g. unfold checkAt.
  destruct (currentTask g) as [|[[|[]|]|[|[]|]|]|];
    apply keeps_andThen; unfold completeTask1, completeTask2, completeTask3;
    auto 12 with frame.
Qed.

(** In any state whatsoever, [checkCurrentTaskCompletion], [spawnCrystal],
    [updateTaskUI] and the asset notification leave the scene handle, the
    player and the village marker as they are, and never move, turn or
    detach the shrine or the elder: of those two only the material can
    change. *)
Theorem task_logic_leaves_world_in_place g :
  untouched g (state_of (checkCurrentTaskCompletion g)) /\
  untouched g (state_of (spawnCrystal g)) /\
  untouched g (state_of (updateTaskUI g)) /\
  untouched g (state_of (onLoad g)).
Proof.
  split; [|split; [apply keeps_spawnCrystal|split;
                   [apply keeps_updateTaskUI|]]].
  - unfold checkCurrentTaskCompletion.
    destruct (playerObjectContainer g) as [pl|]; [|apply untouched_refl].
    apply (keeps_checkAt (position pl)).
  - unfold onLoad. apply keeps_andThen; auto with frame.
Qed.

(** *** More invariants of a run *)

Lemma Inv_task_range g : Inv g -> (1 <= currentTask g <= 4)%Z.
Proof.
  intros H. destruct (Inv_phase g H) as (c & _ & Hph & _).
  destruct Hph; lia.
Qed.

(** Progress is never lost and never skips: along a run the task number
    stays between 1 and 4, never decreases, and grows by at most one per
    event. *)
Theorem task_number_monotone g es :
  reachable g ->
  (1 <= currentTask g)%Z /\
  (currentTask g <= currentTask (run es g))%Z /\
  (currentTask (run es g) <= currentTask g + Z.of_nat (length es))%Z /\
  (currentTask (run es g) <= 4)%Z.
Proof.
  intros Hr.
  pose proof (Inv_task_range _ (reachable_Inv _ Hr)) as Hg.
  pose proof (Inv_task_range _ (reachable_Inv _ (reachable_run es g Hr))) as He.
  split; [lia|]. split; [|split; [|lia]].
  - clear Hg He. revert g Hr. induction es as [|e es IH]; intros g Hr; cbn.
    + lia.
    + specialize (IH (step e g) (reach_step e g Hr)). unfold run in IH.
      destruct (Inv_task_step e g (reachable_Inv g Hr)) as [H|H]; lia.
  - clear Hg He. revert g Hr. induction es as [|e es IH]; intros g Hr.
    + cbn. lia.
    + specialize (IH (step e g) (reach_step e g Hr)).
      cbn [run fold_left length] in *.
      destruct (Inv_task_step e g (reachable_Inv g Hr)) as [H|H];
        unfold run in IH; lia.
Qed.

Lemma task_number_monotone_witness :
  reachable afterShrine /\
  (1 <= currentTask afterShrine)%Z /\
  (currentTask afterShrine
   <= currentTask (run [Frame crystalSpawnPosition; Frame elderPosition;
                        Frame playerStart] afterShrine))%Z /\
  (currentTask (run [Frame crystalSpawnPosition; Frame elderPosition;
                     Frame playerStart] afterShrine)
   <= currentTask afterShrine + Z.of_nat 3)%Z /\
  (currentTask (run [Frame crystalSpawnPosition; Frame elderPosition;
                     Frame playerStart] afterShrine) <= 4)%Z.
Proof.
  assert (Hr : reachable afterShrine).
  { apply reach_step. exact reachable_startState. }
  split; [exact Hr|].
  apply (task_number_monotone afterShrine
           [Frame crystalSpawnPosition; Frame elderPosition; Frame playerStart]
           Hr).
Defined.

Lemma reachable_textTracksTask g : reachable g -> textTracksTask g.
Proof.
  induction 1 as [dom g Hinit|e g Hr IH].
  - rewrite (init_result _ _ Hinit). left. split; reflexivity.
  - apply reachable_Inv in Hr.
    destruct Hr as [pl sh cr vi el t h txt log Hsp Hsm Hep Hem Hph].
    unfold textTracksTask in *. cbn in IH.
    crush_object sh. crush_object el.
    destruct mat as [ms|]; [|congruence].
    destruct mat0 as [me|]; [|congruence].
    destruct Hph as [c Hc|c Hc Hp|c Hc|c Hc]; crush_object c;
      destruct e as [p|]; unfold_js; cbn; split_tests;
      try (right; reflexivity);
      destruct IH as [[IH1 IH2]|IH]; try discriminate;
      try (left; split; [exact IH1|reflexivity]);
      right; exact IH.
Qed.

(** The objective shown is never stale: in every state of a run the text
    element shows the text of the current task, or, in task 1 only, still
    the loading message; after the assets are reported loaded it shows the
    text of the current task. *)
Theorem text_tracks_task g :
  reachable g ->
  textTracksTask g /\
  taskInfoElement (step AssetsLoaded g)
  = Some (taskText (currentTask g) (hasCrystal g)).
Proof.
  intros Hr. split; [apply reachable_textTracksTask; exact Hr|].
  apply reachable_Inv in Hr.
  destruct Hr as [pl sh cr vi el t h txt log Hsp Hsm Hep Hem Hph].
  reflexivity.
Qed.

Lemma text_tracks_task_witness :
  reachable afterCrystal /\ textTracksTask afterCrystal /\
  taskInfoElement (step AssetsLoaded afterCrystal)
  = Some (taskText (currentTask afterCrystal) (hasCrystal afterCrystal)).
Proof.
  assert (Hr : reachable afterCrystal).
  { do 2 apply reach_step. exact reachable_startState. }
  split; [exact Hr|]. apply (text_tracks_task afterCrystal Hr).
Defined.

(** The objective shown tells the task apart: two states of a run that show
    the same text are in the same task. *)
Theorem same_text_same_task g1 g2 :
  reachable g1 -> reachable g2 ->
  taskInfoElement g1 = taskInfoElement g2 ->
  currentTask g1 = currentTask g2.
Proof.
  intros H1 H2 Heq.
  pose proof (reachable_textTracksTask _ H1) as T1.
  pose proof (reachable_textTracksTask _ H2) as T2.
  destruct (Inv_phase _ (reachable_Inv _ H1)) as (c1 & _ & P1 & _).
  destruct (Inv_phase _ (reachable_Inv _ H2)) as (c2 & _ & P2 & _).
  unfold textTracksTask in T1, T2.
  destruct T1 as [[T1 K1]|T1], T2 as [[T2 K2]|T2];
    rewrite T1, T2 in Heq; try congruence;
    destruct P1, P2; cbn in *; try reflexivity; try discriminate.
Qed.

Lemma same_text_same_task_witness :
  taskInfoElement afterCrystal
  = taskInfoElement (step (Frame playerStart) afterCrystal) /\
  currentTask afterCrystal
  = currentTask (step (Frame playerStart) afterCrystal).
Proof.
  assert (Hr : reachable afterCrystal).
  { do 2 apply reach_step. exact reachable_startState. }
  split; [reflexivity|].
  apply (same_text_same_task afterCrystal
           (step (Frame playerStart) afterCrystal) Hr).
  - apply reach_step. exact Hr.
  - reflexivity.
Defined.

(** What a run looks like is fixed by its task number: the shrine is the
    yellow wireframe in task 1 and solid green afterwards, the elder is
    grey until task 4 and the lighter grey in it, the village marker never
    changes, shrine and elder never move, and the crystal is at the origin
    in task 1 and at its spawn position afterwards, in the scene in task 2
    only; of the task objects only the crystal's spin varies besides. *)
Theorem world_is_determined_by_task g :
  reachable g ->
  shrineTarget g = Some (shrineAt (currentTask g)) /\
  elderPlaceholder g = Some (elderAt (currentTask g)) /\
  villageMarker g = villageMarker startState /\
  (exists r, crystalObject g = Some (crystalAt (currentTask g) r)) /\
  (currentTask g = 1%Z -> crystalObject g = crystalObject startState).
Proof.
  induction 1 as [dom g Hinit|e g Hr IH].
  - rewrite (init_result _ _ Hinit).
    repeat split; try reflexivity. exists noRotation. reflexivity.
  - apply reachable_Inv in Hr.
    destruct Hr as [pl sh cr vi el t h txt log Hsp Hsm Hep Hem Hph].
    cbn in IH. destruct IH as (Hs & He & Hv & [r Hc] & H1).
    injection Hs as ->. injection He as ->. injection Hc as ->.
    rewrite Hv. clear Hv Hsp Hsm Hep Hem.
    inversion Hph as [c Hc|c Hc Hp|c Hc|c Hc]; subst;
      try (specialize (H1 eq_refl); injection H1 as H1);
      destruct e as [p|]; unfold_js; cbn; split_tests;
      repeat split; try reflexivity; try discriminate;
      try (eexists; reflexivity);
      try (intros _; rewrite H1; reflexivity).
Qed.

Lemma world_is_determined_by_task_witness :
  reachable afterDelivery /\
  shrineTarget afterDelivery = Some (shrineAt 4) /\
  elderPlaceholder afterDelivery = Some (elderAt 4) /\
  villageMarker afterDelivery = villageMarker startState /\
  (exists r, crystalObject afterDelivery = Some (crystalAt 4 r)).
Proof.
  assert (Hr : reachable afterDelivery).
  { do 3 apply reach_step. exact reachable_startState. }
  split; [exact Hr|].
  destruct (world_is_determined_by_task afterDelivery Hr)
    as (Hs & He & Hv & Hc & _).
  repeat split; assumption.
Defined.

Lemma filter_app_one {A} (f : A -> bool) l a :
  filter f (l ++ [a]) = filter f l ++ (if f a then [a] else []).
Proof. rewrite filter_app. reflexivity. Qed.

(** The console tells the story of a run: apart from the asset
    notifications it holds exactly the lines of the transitions made so
    far, in order and once each. *)
Theorem console_records_transitions g :
  reachable g ->
  transitionLog g = firstn (linesWritten (currentTask g)) transitionLines.
Proof.
  induction 1 as [dom g Hinit|e g Hr IH].
  - rewrite (init_result _ _ Hinit). reflexivity.
  - apply reachable_Inv in Hr.
    destruct Hr as [pl sh cr vi el t h txt log Hsp Hsm Hep Hem Hph].
    unfold transitionLog in *. cbn in IH.
    crush_object sh. crush_object el.
    destruct mat as [ms|]; [|congruence].
    destruct mat0 as [me|]; [|congruence].
    destruct Hph as [c Hc|c Hc Hp|c Hc|c Hc]; crush_object c;
      destruct e as [p|]; unfold_js; cbn; split_tests;
      rewrite ?filter_app_one, ?IH; cbn; rewrite ?app_nil_r; try exact IH;
      reflexivity.
Qed.

Lemma console_records_transitions_witness :
  reachable afterCrystal /\
  transitionLog afterCrystal
  = [ "Task 1 Complete! Shrine Reached.";
      "Crystal spawned near shrine.";
      "Task 2 Complete! Crystal Collected." ]%string.
Proof.
  assert (Hr : reachable afterCrystal).
  { do 2 apply reach_step. exact reachable_startState. }
  split; [exact Hr|].
  apply (console_records_transitions afterCrystal Hr).
Defined.

Lemma frame_reaches_shrine g p :
  Inv g -> currentTask g = 1%Z -> within p shrinePosition = true ->
  currentTask (step (Frame p) g) = 2%Z.
Proof.
  intros [pl sh cr vi el t h txt log Hsp Hsm Hep Hem Hph] Ht Hw.
  cbn in Ht. subst t. crush_object sh.
  destruct mat as [ms|]; [|congruence].
  unfold within, distanceTo, distanceToSquared in Hw. cbn in Hw.
  unfold_js. cbn. rewrite Hw. cbn.
  destruct cr as [cpos crot [[]|] cmat]; reflexivity.
Qed.

Lemma frame_reaches_crystal g p :
  Inv g -> currentTask g = 2%Z -> within p crystalSpawnPosition = true ->
  currentTask (step (Frame p) g) = 3%Z.
Proof.
  intros [pl sh cr vi el t h txt log Hsp Hsm Hep Hem Hph] Ht Hw.
  cbn in Ht. subst t. inversion Hph as [|c Hc Hp| |]; subst.
  crush_object cr.
  unfold within, distanceTo, distanceToSquared in Hw. cbn in Hw.
  unfold_js. cbn. rewrite Hw. reflexivity.
Qed.

(** The crystal spawns inside the shrine's own trigger radius: a player
    who completes task 1 at a spot that is also strictly within 3.0 of the
    crystal's spawn position collects the crystal on the very next frame
    without moving. *)
Theorem crystal_collected_without_moving g p :
  reachable g -> currentTask g = 1%Z ->
  within p shrinePosition = true ->
  within p crystalSpawnPosition = true ->
  currentTask (run [Frame p; Frame p] g) = 3%Z /\
  hasCrystal (run [Frame p; Frame p] g) = true /\
  crystalVisible (run [Frame p; Frame p] g) = false.
Proof.
  intros Hr Ht Hs Hc. apply reachable_Inv in Hr.
  pose proof (proj1 (Inv_step (Frame p) g Hr)) as I1.
  pose proof (frame_reaches_shrine g p Hr Ht Hs) as T1.
  pose proof (proj1 (Inv_step (Frame p) _ I1)) as I2.
  pose proof (frame_reaches_crystal _ p I1 T1 Hc) as T2.
  change (run [Frame p; Frame p] g)
    with (step (Frame p) (step (Frame p) g)).
  split; [exact T2|].
  destruct (Inv_phase _ I2) as (c & _ & Hph & _).
  pose proof (Inv_crystalVisible _ I2) as Hv.
  rewrite T2 in Hph, Hv.
  split.
  - inversion Hph; reflexivity.
  - destruct (crystalVisible (step (Frame p) (step (Frame p) g)));
      [|reflexivity].
    destruct Hv as [Hv _]. specialize (Hv eq_refl). discriminate Hv.
Qed.

Lemma crystal_collected_without_moving_witness :
  within shrinePosition shrinePosition = true /\
  within shrinePosition crystalSpawnPosition = true /\
  currentTask (run [Frame shrinePosition; Frame shrinePosition] startState)
  = 3%Z /\
  hasCrystal (run [Frame shrinePosition; Frame shrinePosition] startState)
  = true /\
  crystalVisible (run [Frame shrinePosition; Frame shrinePosition] startState)
  = false.
Proof.
  split; [reflexivity|]. split; [reflexivity|].
  apply (crystal_collected_without_moving startState shrinePosition);
    [exact reachable_startState|reflexivity|reflexivity|reflexivity].
Defined.

(** *** Error and edge behaviour *)

(** [spawnCrystal] throws exactly when there is a crystal outside the scene
    and the shrine or the scene is undefined.  When it returns and there is
    a crystal, the crystal is in the scene; a crystal that was already
    there is left where it was, and one that was not is put at the shrine's
    position moved by (1.5, -1.0, 0), whatever its position before, with
    its rotation and material kept. *)
Theorem spawnCrystal_cases g :
  (threw (spawnCrystal g) = true <->
   exists c, crystalObject g = Some c /\ parentIsScene g c = false /\
             (shrineTarget g = None \/ scene g = None)) /\
  (forall c, crystalObject g = Some c -> threw (spawnCrystal g) = false ->
     crystalVisible (state_of (spawnCrystal g)) = true) /\
  (crystalVisible g = true -> spawnCrystal g = Normal g) /\
  (forall c s, crystalObject g = Some c -> parentIsScene g c = false ->
     shrineTarget g = Some s -> scene g <> None ->
     exists c',
       crystalObject (state_of (spawnCrystal g)) = Some c' /\
       position c' =
         mkVector3 (x (position s) + 1.5)%float (y (position s) - 1.0)%float
           (z (position s)) /\
       rotation c' = rotation c /\ material c' = material c).
Proof.
  destruct g as [sc pl sh cr vi el t h txt log].
  unfold crystalVisible, spawnCrystal, parentIsScene, console_log, assign.
  cbn.
  repeat split.
  - destruct cr as [[cpos crot [cp|] cmat]|], sc as [s|], sh as [sh|];
      try destruct cp; try destruct s; cbn; intros H; try discriminate H;
      eexists; (split; [reflexivity|]); cbn; auto.
  - intros (c & Hc & Hp & Hn). subst cr.
    destruct c as [cpos crot [cp|] cmat], sc as [s|], sh as [sh|];
      try destruct cp; try destruct s; cbn in *;
      try discriminate; try reflexivity; destruct Hn; discriminate.
  - intros c Hc. subst cr.
    destruct c as [cpos crot [cp|] cmat], sc as [s|], sh as [sh|];
      try destruct cp; try destruct s; cbn; intros H;
      try discriminate H; reflexivity.
  - destruct cr as [[cpos crot [cp|] cmat]|], sc as [s|];
      try destruct cp; try destruct s; cbn; intros H;
      try discriminate H; reflexivity.
  - intros c s Hc Hp Hs Hsc. subst cr sh.
    destruct c as [cpos crot [cp|] cmat], sc as [r|];
      try destruct cp; try destruct r; cbn in *;
      try discriminate; try congruence;
      eexists; repeat split; reflexivity.
Qed.

Lemma spawnCrystal_cases_witness :
  threw (spawnCrystal (moduleState None)) = false /\
  threw (spawnCrystal (set_shrineTarget None startState)) = true /\
  option_map position (crystalObject (state_of (spawnCrystal startState)))
  = Some crystalSpawnPosition.
Proof.
  split; [reflexivity|]. split.
  - apply (proj1 (spawnCrystal_cases (set_shrineTarget None startState))).
    eexists. split; [reflexivity|]. split; [reflexivity|]. left. reflexivity.
  - assert (Hsc : scene startState <> None) by discriminate.
    destruct (proj2 (proj2 (proj2 (spawnCrystal_cases startState)))
                (newMesh crystalMaterial)
                (mkObject3D shrinePosition noRotation (Some SceneRef)
                   (Some shrineMaterial))
                eq_refl eq_refl eq_refl Hsc)
      as (c' & Hc & Hp & _).
    rewrite Hc. cbn. rewrite Hp. reflexivity.
Defined.

Lemma guard_passes_advances g :
  guardPasses g = true ->
  currentTask (state_of (checkCurrentTaskCompletion g))
  = (currentTask g + 1)%Z /\
  threw (checkCurrentTaskCompletion g) = checkThrows g.
Proof.
  unfold checkThrows. intros Hg. rewrite Hg. revert Hg.
  unfold guardPasses, checkCurrentTaskCompletion.
  destruct (playerObjectContainer g) as [pl|]; [|discriminate].
  destruct g as [sc plo sh cr vi el t h txt log]. cbn.
  destruct t as [|[[|[]|]|[|[]|]|]|]; try discriminate; intros Hg;
    unfold andThen, when; cbn; rewrite Hg; revert Hg; unfold_js; cbn.
  - destruct h; [|discriminate]. destruct el as [[epos erot epar [em|]]|];
      [| |discriminate]; intros _;
      destruct txt, cr as [[cpos crot [[]|] cmat]|], sc as [[]|]; cbn;
      split; reflexivity.
  - destruct cr as [[cpos crot [[]|] cmat]|], sc as [[]|]; cbn;
      try discriminate; intros _; destruct txt; cbn; split; reflexivity.
  - destruct sh as [[spos srot spar [sm|]]|]; [| |discriminate]; intros _;
      destruct txt, cr as [[cpos crot [[]|] cmat]|], sc as [[]|]; cbn;
      split; reflexivity.
Qed.

(** In any state whatsoever the task check advances the task by one when
    the guard of the current task passes and leaves it alone otherwise, and
    it throws exactly when the guard passes and either the text element is
    missing or, in task 1, the crystal is to be added to an undefined
    scene: a throw never holds back the transition it interrupts. *)
Theorem check_advances_iff_guard_and_throws_late g :
  currentTask (state_of (checkCurrentTaskCompletion g))
  = (currentTask g + (if guardPasses g then 1 else 0))%Z /\
  threw (checkCurrentTaskCompletion g) = checkThrows g.
Proof.
  destruct (guardPasses g) eqn:Hg.
  - apply guard_passes_advances. exact Hg.
  - rewrite (guard_fails_check g Hg). unfold checkThrows. rewrite Hg.
    destruct (playerObjectContainer g);
      [rewrite currentTask_spinCrystal|cbn]; split; try lia;
      try reflexivity.
    unfold spinCrystal. destruct (crystalObject g) as [c|]; [|reflexivity].
    destruct (parentIsScene g c); reflexivity.
Qed.

(** [init] completes exactly when the page has the text element, and then
    always leaves the same state, whatever the element showed before;
    without the element it throws at its last assignment, with every
    object already created, so the frame loop is never started. *)
Theorem init_needs_text_element dom :
  init (moduleState dom)
  = match dom with
    | Some _ => Normal startState
    | None => TypeError (set_taskInfoElement None startState)
    end.
Proof. destruct dom; reflexivity. Qed.
